(** * PriceHunter: the browser client of the price-comparison service

    A shallow embedding of [droidrun/web/app.js] (class [PriceHunter]) and of
    the winner selection that the specification asks of the search
    orchestrator, with the properties of the two that the specification
    states.

    Layout:
    - strings in UTF-8, with the case mapping and the white space of
      Unicode that [toUpperCase] and [trim] go by;
    - [JsVal]: the values a parsed JSON message can hold, with the JavaScript
      conversions the client applies to them (truthiness, [ToString],
      property access, [JSON.stringify]);
    - [Element], [Card], [State]: the part of the document the client touches,
      the fields of the [PriceHunter] object, and the browser services it
      calls (fetch, WebSocket, setTimeout);
    - [Js]: a state-and-exception monad in which every method is written;
    - the methods of [PriceHunter], in the order of the source;
    - [Event], [dispatch]: the event loop that runs the registered listeners;
    - [Orchestrator]: winner selection, modelled from the specification;
    - the theorems, one per claim [C1] to [C10] of the specification.

    Not modelled: what the client writes to the console, and the [onopen],
    [onerror] and [onclose] listeners, which only write there; and what
    [querySelector] finds when an identifier from the network breaks out of
    the quotes of the selector in another way than the two that
    [card_selector] knows. A method that reaches such a selector ends
    [Unmodelled]. *)

From Stdlib Require Import PrimFloat SpecFloat FloatOps.
From Stdlib Require Import ZArith Ascii String.
From stdpp Require Import gmap strings list fin_maps functions pretty.

Local Open Scope string_scope.
Local Open Scope Z_scope.

#[local] Set Warnings "-register-all".
#[local] Set Warnings "-inexact-float".

(** ** Strings

    A JavaScript string is a sequence of UTF-16 code units. It is held here
    in its UTF-8 encoding, one [ascii] per byte: the two code units of a
    surrogate pair are one code point of four bytes, and an unpaired
    surrogate is encoded like any other code point of three bytes. Every
    JavaScript string has exactly one encoding, and two strings are equal
    when their encodings are. The string literals of the source are copied
    byte for byte. *)

Definition byte (c : ascii) : Z := Z.of_nat (nat_of_ascii c).

Definition of_byte (n : Z) : string :=
  String (ascii_of_nat (Z.to_nat n)) EmptyString.

(** The encoding of a code point. A number from 1114112 on stands for a
    byte that is not part of an encoding, and is written back as that
    byte. *)
Definition encode (cp : Z) : string :=
  if cp <? 128 then of_byte cp
  else if cp <? 2048 then of_byte (192 + cp / 64) ++ of_byte (128 + cp mod 64)
  else if cp <? 65536 then
    of_byte (224 + cp / 4096) ++ of_byte (128 + (cp / 64) mod 64)
    ++ of_byte (128 + cp mod 64)
  else if cp <? 1114112 then
    of_byte (240 + cp / 262144) ++ of_byte (128 + (cp / 4096) mod 64)
    ++ of_byte (128 + (cp / 64) mod 64) ++ of_byte (128 + cp mod 64)
  else of_byte (cp - 1114112).

(** The first code point of a string and the bytes after it: the code point
    whose encoding the string starts with. *)
Definition first_char (s : string) : option (Z * string) :=
  match s with
  | EmptyString => None
  | String a r1 =>
      let stray := Some (1114112 + byte a, r1) in
      let low (c : ascii) := byte c mod 64 in
      if byte a <? 128 then Some (byte a, r1)
      else
        match r1 with
        | EmptyString => stray
        | String b r2 =>
            let cp2 := (byte a - 192) * 64 + low b in
            if String.eqb (encode cp2) (String a (String b EmptyString))
            then Some (cp2, r2)
            else
              match r2 with
              | EmptyString => stray
              | String c r3 =>
                  let cp3 := (byte a - 224) * 4096 + low b * 64 + low c in
                  if String.eqb (encode cp3)
                       (String a (String b (String c EmptyString)))
                  then Some (cp3, r3)
                  else
                    match r3 with
                    | EmptyString => stray
                    | String d r4 =>
                        let cp4 := (byte a - 240) * 262144 + low b * 4096
                                   + low c * 64 + low d in
                        if String.eqb (encode cp4)
                             (String a (String b (String c (String d EmptyString))))
                        then Some (cp4, r4)
                        else stray
                    end
              end
        end
  end.

Fixpoint code_points_from (fuel : nat) (s : string) : list Z :=
  match fuel with
  | O => []
  | S fuel =>
      match first_char s with
      | None => []
      | Some (cp, rest) => cp :: code_points_from fuel rest
      end
  end.

(** The code points of a string, and the string of a list of code points. *)
Definition code_points (s : string) : list Z :=
  code_points_from (String.length s) s.

Definition of_code_points (l : list Z) : string :=
  foldr (λ cp s, encode cp ++ s) EmptyString l.

(** *** Case mapping

    The upper-case mapping of Unicode 14.0, which [toUpperCase] applies to
    every code point whatever the locale: the simple mappings of
    [UnicodeData.txt], as runs [(first, last, step, offset)] of code points
    that map to themselves plus [offset], and the unconditional mappings of
    [SpecialCasing.txt] to more than one code point. *)
Definition upper_runs : list (Z * Z * Z * Z) :=
  [(97, 122, 1, -32); (181, 181, 1, 743); (224, 246, 1, -32);
   (248, 254, 1, -32); (255, 255, 1, 121); (257, 303, 2, -1);
   (305, 305, 1, -232); (307, 311, 2, -1); (314, 328, 2, -1);
   (331, 375, 2, -1); (378, 382, 2, -1); (383, 383, 1, -300);
   (384, 384, 1, 195); (387, 389, 2, -1); (392, 392, 1, -1);
   (396, 396, 1, -1); (402, 402, 1, -1); (405, 405, 1, 97);
   (409, 409, 1, -1); (410, 410, 1, 163); (414, 414, 1, 130);
   (417, 421, 2, -1); (424, 424, 1, -1); (429, 429, 1, -1);
   (432, 432, 1, -1); (436, 438, 2, -1); (441, 441, 1, -1);
   (445, 445, 1, -1); (447, 447, 1, 56); (453, 453, 1, -1);
   (454, 454, 1, -2); (456, 456, 1, -1); (457, 457, 1, -2);
   (459, 459, 1, -1); (460, 460, 1, -2); (462, 476, 2, -1);
   (477, 477, 1, -79); (479, 495, 2, -1); (498, 498, 1, -1);
   (499, 499, 1, -2); (501, 501, 1, -1); (505, 543, 2, -1);
   (547, 563, 2, -1); (572, 572, 1, -1); (575, 576, 1, 10815);
   (578, 578, 1, -1); (583, 591, 2, -1); (592, 592, 1, 10783);
   (593, 593, 1, 10780); (594, 594, 1, 10782); (595, 595, 1, -210);
   (596, 596, 1, -206); (598, 599, 1, -205); (601, 601, 1, -202);
   (603, 603, 1, -203); (604, 604, 1, 42319); (608, 608, 1, -205);
   (609, 609, 1, 42315); (611, 611, 1, -207); (613, 613, 1, 42280);
   (614, 614, 1, 42308); (616, 616, 1, -209); (617, 617, 1, -211);
   (618, 618, 1, 42308); (619, 619, 1, 10743); (620, 620, 1, 42305);
   (623, 623, 1, -211); (625, 625, 1, 10749); (626, 626, 1, -213);
   (629, 629, 1, -214); (637, 637, 1, 10727); (640, 640, 1, -218);
   (642, 642, 1, 42307); (643, 643, 1, -218); (647, 647, 1, 42282);
   (648, 648, 1, -218); (649, 649, 1, -69); (650, 651, 1, -217);
   (652, 652, 1, -71); (658, 658, 1, -219); (669, 669, 1, 42261);
   (670, 670, 1, 42258); (837, 837, 1, 84); (881, 883, 2, -1);
   (887, 887, 1, -1); (891, 893, 1, 130); (940, 940, 1, -38);
   (941, 943, 1, -37); (945, 961, 1, -32); (962, 962, 1, -31);
   (963, 971, 1, -32); (972, 972, 1, -64); (973, 974, 1, -63);
   (976, 976, 1, -62); (977, 977, 1, -57); (981, 981, 1, -47);
   (982, 982, 1, -54); (983, 983, 1, -8); (985, 1007, 2, -1);
   (1008, 1008, 1, -86); (1009, 1009, 1, -80); (1010, 1010, 1, 7);
   (1011, 1011, 1, -116); (1013, 1013, 1, -96); (1016, 1016, 1, -1);
   (1019, 1019, 1, -1); (1072, 1103, 1, -32); (1104, 1119, 1, -80);
   (1121, 1153, 2, -1); (1163, 1215, 2, -1); (1218, 1230, 2, -1);
   (1231, 1231, 1, -15); (1233, 1327, 2, -1); (1377, 1414, 1, -48);
   (4304, 4346, 1, 3008); (4349, 4351, 1, 3008); (5112, 5117, 1, -8);
   (7296, 7296, 1, -6254); (7297, 7297, 1, -6253); (7298, 7298, 1, -6244);
   (7299, 7300, 1, -6242); (7301, 7301, 1, -6243); (7302, 7302, 1, -6236);
   (7303, 7303, 1, -6181); (7304, 7304, 1, 35266); (7545, 7545, 1, 35332);
   (7549, 7549, 1, 3814); (7566, 7566, 1, 35384); (7681, 7829, 2, -1);
   (7835, 7835, 1, -59); (7841, 7935, 2, -1); (7936, 7943, 1, 8);
   (7952, 7957, 1, 8); (7968, 7975, 1, 8); (7984, 7991, 1, 8);
   (8000, 8005, 1, 8); (8017, 8023, 2, 8); (8032, 8039, 1, 8);
   (8048, 8049, 1, 74); (8050, 8053, 1, 86); (8054, 8055, 1, 100);
   (8056, 8057, 1, 128); (8058, 8059, 1, 112); (8060, 8061, 1, 126);
   (8112, 8113, 1, 8); (8126, 8126, 1, -7205); (8144, 8145, 1, 8);
   (8160, 8161, 1, 8); (8165, 8165, 1, 7); (8526, 8526, 1, -28);
   (8560, 8575, 1, -16); (8580, 8580, 1, -1); (9424, 9449, 1, -26);
   (11312, 11359, 1, -48); (11361, 11361, 1, -1); (11365, 11365, 1, -10795);
   (11366, 11366, 1, -10792); (11368, 11372, 2, -1); (11379, 11379, 1, -1);
   (11382, 11382, 1, -1); (11393, 11491, 2, -1); (11500, 11502, 2, -1);
   (11507, 11507, 1, -1); (11520, 11557, 1, -7264); (11559, 11559, 1, -7264);
   (11565, 11565, 1, -7264); (42561, 42605, 2, -1); (42625, 42651, 2, -1);
   (42787, 42799, 2, -1); (42803, 42863, 2, -1); (42874, 42876, 2, -1);
   (42879, 42887, 2, -1); (42892, 42892, 1, -1); (42897, 42899, 2, -1);
   (42900, 42900, 1, 48); (42903, 42921, 2, -1); (42933, 42947, 2, -1);
   (42952, 42954, 2, -1); (42961, 42961, 1, -1); (42967, 42969, 2, -1);
   (42998, 42998, 1, -1); (43859, 43859, 1, -928); (43888, 43967, 1, -38864);
   (65345, 65370, 1, -32); (66600, 66639, 1, -40); (66776, 66811, 1, -40);
   (66967, 66977, 1, -39); (66979, 66993, 1, -39); (66995, 67001, 1, -39);
   (67003, 67004, 1, -39); (68800, 68850, 1, -64); (71872, 71903, 1, -32);
   (93792, 93823, 1, -32); (125218, 125251, 1, -34)].

Definition upper_special : list (Z * list Z) :=
  [(223, [83; 83]); (329, [700; 78]); (496, [74; 780]);
   (912, [921; 776; 769]); (944, [933; 776; 769]); (1415, [1333; 1362]);
   (7830, [72; 817]); (7831, [84; 776]); (7832, [87; 778]);
   (7833, [89; 778]); (7834, [65; 702]); (8016, [933; 787]);
   (8018, [933; 787; 768]); (8020, [933; 787; 769]); (8022, [933; 787; 834]);
   (8064, [7944; 921]); (8065, [7945; 921]); (8066, [7946; 921]);
   (8067, [7947; 921]); (8068, [7948; 921]); (8069, [7949; 921]);
   (8070, [7950; 921]); (8071, [7951; 921]); (8072, [7944; 921]);
   (8073, [7945; 921]); (8074, [7946; 921]); (8075, [7947; 921]);
   (8076, [7948; 921]); (8077, [7949; 921]); (8078, [7950; 921]);
   (8079, [7951; 921]); (8080, [7976; 921]); (8081, [7977; 921]);
   (8082, [7978; 921]); (8083, [7979; 921]); (8084, [7980; 921]);
   (8085, [7981; 921]); (8086, [7982; 921]); (8087, [7983; 921]);
   (8088, [7976; 921]); (8089, [7977; 921]); (8090, [7978; 921]);
   (8091, [7979; 921]); (8092, [7980; 921]); (8093, [7981; 921]);
   (8094, [7982; 921]); (8095, [7983; 921]); (8096, [8040; 921]);
   (8097, [8041; 921]); (8098, [8042; 921]); (8099, [8043; 921]);
   (8100, [8044; 921]); (8101, [8045; 921]); (8102, [8046; 921]);
   (8103, [8047; 921]); (8104, [8040; 921]); (8105, [8041; 921]);
   (8106, [8042; 921]); (8107, [8043; 921]); (8108, [8044; 921]);
   (8109, [8045; 921]); (8110, [8046; 921]); (8111, [8047; 921]);
   (8114, [8122; 921]); (8115, [913; 921]); (8116, [902; 921]);
   (8118, [913; 834]); (8119, [913; 834; 921]); (8124, [913; 921]);
   (8130, [8138; 921]); (8131, [919; 921]); (8132, [905; 921]);
   (8134, [919; 834]); (8135, [919; 834; 921]); (8140, [919; 921]);
   (8146, [921; 776; 768]); (8147, [921; 776; 769]); (8150, [921; 834]);
   (8151, [921; 776; 834]); (8162, [933; 776; 768]); (8163, [933; 776; 769]);
   (8164, [929; 787]); (8166, [933; 834]); (8167, [933; 776; 834]);
   (8178, [8186; 921]); (8179, [937; 921]); (8180, [911; 921]);
   (8182, [937; 834]); (8183, [937; 834; 921]); (8188, [937; 921]);
   (64256, [70; 70]); (64257, [70; 73]); (64258, [70; 76]);
   (64259, [70; 70; 73]); (64260, [70; 70; 76]); (64261, [83; 84]);
   (64262, [83; 84]); (64275, [1348; 1350]); (64276, [1348; 1333]);
   (64277, [1348; 1339]); (64278, [1358; 1350]); (64279, [1348; 1341])].

Fixpoint upper_run (runs : list (Z * Z * Z * Z)) (cp : Z) : Z :=
  match runs with
  | [] => cp
  | (first, last, step, offset) :: runs =>
      if (first <=? cp) && (cp <=? last) && ((cp - first) mod step =? 0)
      then cp + offset
      else upper_run runs cp
  end.

Fixpoint upper_of (special : list (Z * list Z)) (cp : Z) : list Z :=
  match special with
  | [] => [upper_run upper_runs cp]
  | (cp', upper) :: special => if cp =? cp' then upper else upper_of special cp
  end.

(** The upper case of a code point: one code point or more. *)
Definition upper_code_point (cp : Z) : list Z := upper_of upper_special cp.

(** [s.toUpperCase()] *)
Definition toUpperCase (s : string) : string :=
  of_code_points (code_points s ≫= upper_code_point).

(** The upper case of an ASCII character. *)
Definition upper_ascii (c : ascii) : ascii :=
  let n := nat_of_ascii c in
  if ((97 <=? n) && (n <=? 122))%nat then ascii_of_nat (n - 32) else c.

(** [s.charAt(0).toUpperCase() + s.slice(1)]. [charAt(0)] is the first code
    unit: the first code point when that is below 65536, and otherwise the
    first half of a surrogate pair, which has no upper case, so that the
    string is put together again as it was. *)
Definition capitalized (s : string) : string :=
  match first_char s with
  | None => EmptyString
  | Some (cp, rest) =>
      (if cp <? 65536 then of_code_points (upper_code_point cp) else encode cp)
      ++ rest
  end.

(** *** White space

    What [trim] removes: the [WhiteSpace] and [LineTerminator] code points
    of ECMAScript, that is TAB, LF, VT, FF, CR, SPACE, NO-BREAK SPACE, the
    other space separators of Unicode, LINE and PARAGRAPH SEPARATOR and the
    byte order mark. *)
Definition is_space (cp : Z) : bool :=
  ((9 <=? cp) && (cp <=? 13)) || (cp =? 32) || (cp =? 160) || (cp =? 5760)
  || ((8192 <=? cp) && (cp <=? 8202)) || (cp =? 8232) || (cp =? 8233)
  || (cp =? 8239) || (cp =? 8287) || (cp =? 12288) || (cp =? 65279).

Fixpoint trimStart (l : list Z) : list Z :=
  match l with
  | [] => []
  | cp :: rest => if is_space cp then trimStart rest else l
  end.

Fixpoint trimEnd (l : list Z) : list Z :=
  match l with
  | [] => []
  | cp :: rest =>
      match trimEnd rest with
      | [] => if is_space cp then [] else [cp]
      | rest' => cp :: rest'
      end
  end.

(** [s.trim()] *)
Definition trim (s : string) : string :=
  of_code_points (trimEnd (trimStart (code_points s))).

(** ** JavaScript values *)

(** A number is a double, a primitive [float]. [JSON.parse] rounds a literal
    to the nearest double, and to an infinity when it is out of range; so
    does a literal here. *)

(** *** [Number::toString]

    A double other than zero is [± m × 2 ^ e] for a mantissa [m] below
    [2 ^ 53] and an exponent [e] from [-1074] on. It is printed with the
    fewest decimal digits that are read back as the same double, and among
    those with the digits nearest to it. *)

Definition zeros (n : Z) : string :=
  string_of_list_ascii (replicate (Z.to_nat n) "0"%char).

(** [10 ^ t ≤ m × 2 ^ e] *)
Definition pow10_le (t : Z) (m e : Z) : bool :=
  10 ^ Z.max t 0 * 2 ^ Z.max (- e) 0 <=? m * 2 ^ Z.max e 0 * 10 ^ Z.max (- t) 0.

(** The decimal exponent of [m × 2 ^ e]: the [t] with
    [10 ^ t ≤ m × 2 ^ e < 10 ^ (t + 1)]. *)
Definition decimal_exponent (m e : Z) : Z :=
  let t := (Z.log2 m + e) * 1233 / 4096 in
  let t := if pow10_le t m e then t else t - 1 in
  let t := if pow10_le t m e then t else t - 1 in
  let t := if pow10_le (t + 1) m e then t + 1 else t in
  if pow10_le (t + 1) m e then t + 1 else t.

(** The decimal of [k] digits nearest to the double [m × 2 ^ e], if one of
    the two around it is read back as that double: its digits [s] and its
    exponent [q], for the decimal [s × 10 ^ q]. A decimal is read back as
    the double when it lies between the midpoints to the doubles next to
    it, the midpoints included when [m] is even; the double below is at half
    the distance when [m] is [2 ^ 52]. All are compared as multiples of
    [2 ^ (e - 2)]. *)
Definition decimal_of_digits (m e t k : Z) : option (Z * Z) :=
  let q := t - k + 1 in
  let a := 10 ^ Z.max q 0 * 2 ^ Z.max (2 - e) 0 in
  let b := 10 ^ Z.max (- q) 0 * 2 ^ Z.max (e - 2) 0 in
  let v := 4 * m * b in
  let low := (if (m =? 2 ^ 52) && (-1074 <? e) then 4 * m - 1 else 4 * m - 2) * b in
  let high := (4 * m + 2) * b in
  let inside (s : Z) :=
    if Z.even m then (low <=? s * a) && (s * a <=? high)
    else (low <? s * a) && (s * a <? high) in
  let s1 := v / a in
  let s2 := s1 + 1 in
  match inside s1, inside s2 with
  | true, true =>
      let d1 := v - s1 * a in
      let d2 := s2 * a - v in
      if d1 <? d2 then Some (s1, q)
      else if d2 <? d1 then Some (s2, q)
      else if Z.even s1 then Some (s1, q) else Some (s2, q)
  | true, false => Some (s1, q)
  | false, true => Some (s2, q)
  | false, false => None
  end.

(** Seventeen digits tell any two doubles apart. *)
Fixpoint shortest_from (fuel : nat) (m e t k : Z) : Z * Z :=
  match fuel with
  | O => (m, 0)
  | S fuel =>
      match decimal_of_digits m e t k with
      | Some d => d
      | None => shortest_from fuel m e t (k + 1)
      end
  end.

(** The shortest decimal that is read back as the double [m × 2 ^ e]. *)
Definition shortest (m e : Z) : Z * Z :=
  shortest_from 17 m e (decimal_exponent m e) 1.

Fixpoint strip_zeros (fuel : nat) (s q : Z) : Z * Z :=
  match fuel with
  | O => (s, q)
  | S fuel =>
      if (s mod 10 =? 0) && (0 <? s) then strip_zeros fuel (s / 10) (q + 1)
      else (s, q)
  end.

(** [Number::toString(x)] for [x = s × 10 ^ q > 0], [s] without a zero at
    its end: with [k] digits and the decimal point after the [n]-th of them,
    the digits padded with zeros when [k ≤ n ≤ 21], the digits around the
    point when [0 < n ≤ 21], the digits after [0.] and zeros when
    [-6 < n ≤ 0], and the exponent written out otherwise. *)
Definition decimal_toString (s q : Z) : string :=
  let digits := pretty s in
  let k := Z.of_nat (String.length digits) in
  let n := q + k in
  if (k <=? n) && (n <=? 21) then digits ++ zeros (n - k)
  else if (0 <? n) && (n <=? 21) then
    substring 0 (Z.to_nat n) digits ++ "."
    ++ substring (Z.to_nat n) (Z.to_nat (k - n)) digits
  else if (-6 <? n) && (n <=? 0) then "0." ++ zeros (- n) ++ digits
  else
    let e := n - 1 in
    (if k =? 1 then digits
     else substring 0 1 digits ++ "." ++ substring 1 (Z.to_nat (k - 1)) digits)
    ++ "e" ++ (if e <? 0 then "-" else "+") ++ pretty (Z.abs e).

(** [Number::toString(x)] *)
Definition Number_toString (x : float) : string :=
  match Prim2SF x with
  | S754_nan => "NaN"
  | S754_zero _ => "0"
  | S754_infinity negative => (if negative then "-" else "") ++ "Infinity"
  | S754_finite negative m e =>
      let '(s, q) := shortest (Z.pos m) e in
      let '(s, q) := strip_zeros 17 s q in
      (if negative then "-" else "") ++ decimal_toString s q
  end.

(** The values [JSON.parse] produces, and [undefined] for an absent
    property. *)
Inductive JsVal : Type :=
| JUndefined
| JNull
| JBool (b : bool)
| JNum (x : float)
| JStr (s : string)
| JArr (items : list JsVal)
| JObj (fields : list (string * JsVal)).

(** [ToBoolean]: what [if (v)], [a && b] and [a || b] test. *)
Definition truthy (v : JsVal) : bool :=
  match v with
  | JUndefined | JNull => false
  | JBool b => b
  | JNum x => negb (is_zero x || is_nan x)
  | JStr s => negb (String.eqb s "")
  | JArr _ | JObj _ => true
  end.

(** [a || b] *)
Definition js_or (a b : JsVal) : JsVal := if truthy a then a else b.

(** [a && b] *)
Definition js_and (a b : JsVal) : JsVal := if truthy a then b else a.

(** [v === 'lit'] for a string literal: no conversion takes place. *)
Definition strict_eq_str (v : JsVal) (lit : string) : bool :=
  match v with
  | JStr s => String.eqb s lit
  | _ => false
  end.

(** [ToString], as applied by template literals, by property keys and by the
    [textContent] setter. *)
Fixpoint ToString (v : JsVal) : string :=
  match v with
  | JUndefined => "undefined"
  | JNull => "null"
  | JBool true => "true"
  | JBool false => "false"
  | JNum x => Number_toString x
  | JStr s => s
  | JArr items =>
      (fix join (l : list JsVal) : string :=
         let item x := match x with
                       | JUndefined | JNull => ""
                       | _ => ToString x
                       end in
         match l with
         | [] => ""
         | [x] => item x
         | x :: rest => item x ++ "," ++ join rest
         end) items
  | JObj _ => "[object Object]"
  end.

(** The first binding of a key in an object. *)
Fixpoint assoc (k : string) (fields : list (string * JsVal)) : JsVal :=
  match fields with
  | [] => JUndefined
  | (k', v) :: rest => if String.eqb k k' then v else assoc k rest
  end.

(** ** JSON text *)

Definition quote : string := String (ascii_of_nat 34) EmptyString.
Definition backslash : string := String (ascii_of_nat 92) EmptyString.

Definition hex_digit (n : nat) : ascii :=
  if (n <? 10)%nat then ascii_of_nat (48 + n) else ascii_of_nat (87 + n).

(** One character of a JSON string literal. *)
Definition escape_char (c : ascii) : string :=
  let n := nat_of_ascii c in
  if (n =? 34)%nat then backslash ++ quote
  else if (n =? 92)%nat then backslash ++ backslash
  else if (n =? 8)%nat then backslash ++ "b"
  else if (n =? 9)%nat then backslash ++ "t"
  else if (n =? 10)%nat then backslash ++ "n"
  else if (n =? 12)%nat then backslash ++ "f"
  else if (n =? 13)%nat then backslash ++ "r"
  else if (n <? 32)%nat then
    backslash ++ "u00" ++ String (hex_digit (n / 16)) (String (hex_digit (n mod 16)) EmptyString)
  else String c EmptyString.

(** Whether three bytes encode an unpaired surrogate, a code point from
    55296 to 57343. *)
Definition is_surrogate (a b : ascii) : bool :=
  ((nat_of_ascii a =? 237) && (160 <=? nat_of_ascii b))%nat.

(** An unpaired surrogate in a JSON string literal: [\udXXX]. *)
Definition escape_surrogate (b c : ascii) : string :=
  let n := (nat_of_ascii b mod 64 * 64 + nat_of_ascii c mod 64)%nat in
  backslash ++ "ud"
  ++ String (hex_digit (n / 256))
       (String (hex_digit (n / 16 mod 16)) (String (hex_digit (n mod 16)) EmptyString)).

Fixpoint escape (s : string) : string :=
  match s with
  | EmptyString => EmptyString
  | String a r1 =>
      match r1 with
      | String b (String c r3) =>
          if is_surrogate a b then escape_surrogate b c ++ escape r3
          else escape_char a ++ escape r1
      | _ => escape_char a ++ escape r1
      end
  end.

Definition quoted (s : string) : string := quote ++ escape s ++ quote.

(** [JSON.stringify(v)] for a value other than [undefined]: an object property
    whose value is [undefined] is left out, an array item that is [undefined]
    is written [null], and so is a number that is not finite. *)
Fixpoint stringify (v : JsVal) : string :=
  match v with
  | JUndefined | JNull => "null"
  | JBool true => "true"
  | JBool false => "false"
  | JNum x => if is_finite x then Number_toString x else "null"
  | JStr s => quoted s
  | JArr items =>
      "[" ++ (fix go (l : list JsVal) : string :=
                match l with
                | [] => ""
                | [x] => stringify x
                | x :: rest => stringify x ++ "," ++ go rest
                end) items ++ "]"
  | JObj fields =>
      "{" ++ (fix go (first : bool) (l : list (string * JsVal)) : string :=
                match l with
                | [] => ""
                | (k, JUndefined) :: rest => go first rest
                | (k, x) :: rest =>
                    (if first then "" else ",") ++ quoted k ++ ":" ++ stringify x
                    ++ go false rest
                end) true fields ++ "}"
  end.

(** ** The document *)

(** An element, as far as the client reads or writes it: its class list, its
    text and, for a button, whether it is disabled. *)
Record Element : Type := mkElement {
  classList : list string;
  textContent : string;
  disabled : bool
}.

(** [el.classList.add(c)] *)
Definition classList_add (c : string) (el : Element) : Element :=
  if bool_decide (c ∈ classList el) then el
  else mkElement (classList el ++ [c]) (textContent el) (disabled el).

(** [el.classList.remove(c)] *)
Definition classList_remove (c : string) (el : Element) : Element :=
  mkElement (filter (λ c', c' ≠ c) (classList el)) (textContent el) (disabled el).

(** [el.className = 'a b']: the class list becomes the tokens given. *)
Definition set_className (tokens : list string) (el : Element) : Element :=
  mkElement (remove_dups tokens) (textContent el) (disabled el).

(** The text that [el.textContent = v] writes: [null] and [undefined] clear
    the text, any other value is converted with [ToString]. *)
Definition text_of (v : JsVal) : string :=
  match v with
  | JUndefined | JNull => ""
  | _ => ToString v
  end.

(** [el.textContent = v] *)
Definition set_textContent (v : JsVal) (el : Element) : Element :=
  mkElement (classList el) (text_of v) (disabled el).

(** [el.disabled = b] *)
Definition set_disabled (b : bool) (el : Element) : Element :=
  mkElement (classList el) (textContent el) b.

Definition has_class (c : string) (el : Element) : bool :=
  bool_decide (c ∈ classList el).

(** The elements [initElements] looks up, by the name of the field that holds
    them. The page is taken to contain every one of them: the constructor
    fails otherwise. *)
Inductive ElId : Type :=
| searchBtn | btnText | btnLoader
| statusSection | statusTitle | statusMessage | resultsSection | bestDeal
| bestApp | bestPrice | bestAppBtn | buyBestBtn
| orderModal | orderApp | orderProduct | cancelOrder | confirmOrder
| orderStatusModal | orderStatusTitle | orderStatusMsg.

#[global] Instance ElId_eq_dec : EqDecision ElId.
Proof. solve_decision. Defined.

(** The descendants of a price card that [card.querySelector] finds, and the
    card itself. Every card is taken to have all of them, as [resetCards]
    requires. *)
Inductive Part : Type :=
| Self          (* .price-card *)
| Loading       (* .price-loading *)
| Content       (* .price-content *)
| PriceValue    (* .price-value *)
| ProductName   (* .product-name *)
| Badge         (* .status-badge *)
| BuyBtn.       (* .btn-buy *)

#[global] Instance Part_eq_dec : EqDecision Part.
Proof. solve_decision. Defined.

(** A [.price-card] element: its [data-app] attribute, the [data-app]
    attribute of its buy button, and its parts. *)
Record Card : Type := mkCard {
  data_app : option string;
  buy_data_app : option string;
  part : Part → Element
}.

Definition on_part (p : Part) (f : Element → Element) (c : Card) : Card :=
  mkCard (data_app c) (buy_data_app c) (alter f p (part c)).

(** ** The browser services *)

(** Which [await fetch(...)] a response resumes. *)
Inductive Continuation : Type := InStartSearch | InPlaceOrder.

Record Fetch : Type := mkFetch {
  fetch_url : string;
  fetch_method : string;
  fetch_headers : list (string * string);
  fetch_body : string;
  fetch_resumes : Continuation;
  fetch_settled : bool
}.

(** How a fetch settles: the promise rejects, or it resolves with a response
    whose body [response.json()] parses ([Some]) or rejects ([None]). *)
Inductive FetchOutcome : Type :=
| Rejected
| Resolved (json : option JsVal).

(** The [onmessage] listener attached to a socket. *)
Inductive Listener : Type := SearchListener | OrderListener.

Record Socket : Type := mkSocket {
  ws_url : string;
  ws_onmessage : option Listener;
  ws_closed : bool
}.

(** The callback passed to [setTimeout]. *)
Inductive Callback : Type := HideOrderStatusModal.

Record Timer : Type := mkTimer {
  timer_delay : Z;
  timer_callback : Callback;
  timer_fired : bool
}.

(** ** The state *)

(** The fields of the [PriceHunter] object. A socket is referred to by its
    position in [sockets]. *)
#[projections(primitive)]
Record Fields : Type := mkFields {
  currentTaskId : JsVal;
  currentProduct : JsVal;
  ws : option nat;
  results : gmap string JsVal;
  selectedOrderApp : JsVal
}.

#[projections(primitive)]
Record Document : Type := mkDocument {
  productInput_value : string;
  productInput_focused : bool;
  element : ElId → Element;
  priceCards : list Card
}.

#[projections(primitive)]
Record Window : Type := mkWindow {
  location_host : string;
  fetches : list Fetch;
  sockets : list Socket;
  timers : list Timer
}.

#[projections(primitive)]
Record State : Type := mkState {
  this : Fields;
  document : Document;
  window : Window
}.

Definition on_this (f : Fields → Fields) (st : State) : State :=
  mkState (f (this st)) (document st) (window st).
Definition on_document (f : Document → Document) (st : State) : State :=
  mkState (this st) (f (document st)) (window st).
Definition on_window (f : Window → Window) (st : State) : State :=
  mkState (this st) (document st) (f (window st)).

Definition with_currentTaskId (v : JsVal) (o : Fields) : Fields :=
  mkFields v (currentProduct o) (ws o) (results o) (selectedOrderApp o).
Definition with_currentProduct (v : JsVal) (o : Fields) : Fields :=
  mkFields (currentTaskId o) v (ws o) (results o) (selectedOrderApp o).
Definition with_ws (w : option nat) (o : Fields) : Fields :=
  mkFields (currentTaskId o) (currentProduct o) w (results o) (selectedOrderApp o).
Definition with_results (r : gmap string JsVal) (o : Fields) : Fields :=
  mkFields (currentTaskId o) (currentProduct o) (ws o) r (selectedOrderApp o).
Definition with_selectedOrderApp (v : JsVal) (o : Fields) : Fields :=
  mkFields (currentTaskId o) (currentProduct o) (ws o) (results o) v.

Definition with_value (s : string) (d : Document) : Document :=
  mkDocument s (productInput_focused d) (element d) (priceCards d).
Definition with_focused (b : bool) (d : Document) : Document :=
  mkDocument (productInput_value d) b (element d) (priceCards d).
Definition with_element (e : ElId → Element) (d : Document) : Document :=
  mkDocument (productInput_value d) (productInput_focused d) e (priceCards d).
Definition with_priceCards (cs : list Card) (d : Document) : Document :=
  mkDocument (productInput_value d) (productInput_focused d) (element d) cs.

Definition with_fetches (l : list Fetch) (w : Window) : Window :=
  mkWindow (location_host w) l (sockets w) (timers w).
Definition with_sockets (l : list Socket) (w : Window) : Window :=
  mkWindow (location_host w) (fetches w) l (timers w).
Definition with_timers (l : list Timer) (w : Window) : Window :=
  mkWindow (location_host w) (fetches w) (sockets w) l.

(** ** Selectors and URLs *)

(** The bytes that do not stay inside a quoted string of a selector: the
    double quote ends it, the backslash starts an escape, a line break (LF,
    FF, CR) makes the text invalid, and NUL is replaced by the parser. *)
Definition leaves_quotes (c : ascii) : bool :=
  let n := nat_of_ascii c in
  ((n =? 0) || (n =? 10) || (n =? 12) || (n =? 13) || (n =? 34) || (n =? 92))%nat.

(** Whether a string holds an unpaired surrogate, which the parser replaces
    as well. *)
Fixpoint has_surrogate (s : string) : bool :=
  match s with
  | String a (String b _ as rest) => is_surrogate a b || has_surrogate rest
  | _ => false
  end.

Fixpoint all_bytes (p : ascii → bool) (s : string) : bool :=
  match s with
  | EmptyString => true
  | String c rest => p c && all_bytes p rest
  end.

(** An identifier that [`[data-app="${app}"]`] compares the attribute with,
    byte for byte. *)
Definition selector_safe (app : string) : bool :=
  all_bytes (λ c, negb (leaves_quotes c)) app && negb (has_surrogate app).

Definition is_letter (c : ascii) : bool :=
  let n := nat_of_ascii c in
  (((65 <=? n) && (n <=? 90)) || ((97 <=? n) && (n <=? 122)))%nat.

(** The text before the first double quote of a string, and the text after
    it. *)
Fixpoint split_at_quote (s : string) : option (string * string) :=
  match s with
  | EmptyString => None
  | String c rest =>
      if (nat_of_ascii c =? 34)%nat then Some (EmptyString, rest)
      else match split_at_quote rest with
           | Some (before, after) => Some (String c before, after)
           | None => None
           end
  end.

Fixpoint strip_prefix (prefix s : string) : option string :=
  match prefix, s with
  | EmptyString, _ => Some s
  | String a prefix, String b s => if Ascii.eqb a b then strip_prefix prefix s else None
  | _, _ => None
  end.

(** What [`.price-card[data-app="${app}"]`] is, as far as it is modelled. *)
Inductive Selector : Type :=
| AttrEquals (v : string)     (* .price-card[data-app="v"] *)
| AttrEither (v w : string)   (* .price-card[data-app="v"],.price-card[data-app="w"] *)
| Invalid                     (* not a selector *)
| Other.                      (* not modelled *)

Definition card_selector (app : string) : Selector :=
  if selector_safe app then AttrEquals app
  else
    match split_at_quote app with
    | Some (v, after) =>
        if selector_safe v then
          if all_bytes is_letter after && negb (String.eqb after "") then Invalid
          else
            match strip_prefix ("],.price-card[data-app=" ++ quote) after with
            | Some w => if selector_safe w then AttrEither v w else Other
            | None => Other
            end
        else Other
    | None => Other
    end.

(** Whether a string holds a [#]. *)
Fixpoint has_hash (s : string) : bool :=
  match s with
  | EmptyString => false
  | String c rest => (nat_of_ascii c =? 35)%nat || has_hash rest
  end.

(** ** The monad of methods *)

Inductive JsError : Type := TypeError | SyntaxError | NetworkError.

(** How a call ends: normally with a value, or with an exception; or it
    reaches a step whose outcome is not modelled, and nothing is said of what
    follows. *)
Inductive Completion (A : Type) : Type :=
| Normal (a : A)
| Throw (e : JsError)
| Unmodelled.
Arguments Normal {A} a.
Arguments Throw {A} e.
Arguments Unmodelled {A}.

(** A method: from the state before the call to its completion and the state
    after it. What was written before an exception stays written. *)
Definition Js (A : Type) : Type := State → Completion A * State.

Definition ret {A} (a : A) : Js A := λ st, (Normal a, st).

Definition bind {A B} (m : Js A) (k : A → Js B) : Js B :=
  λ st, match m st with
        | (Normal a, st') => k a st'
        | (Throw e, st') => (Throw e, st')
        | (Unmodelled, st') => (Unmodelled, st')
        end.

Definition throw {A} (e : JsError) : Js A := λ st, (Throw e, st).

Definition unmodelled {A} : Js A := λ st, (Unmodelled, st).

Definition gets {A} (f : State → A) : Js A := λ st, (Normal (f st), st).

Definition modify (f : State → State) : Js unit := λ st, (Normal tt, f st).

(** [try { body } catch (error) { handler }] *)
Definition try_catch {A} (body : Js A) (handler : JsError → Js A) : Js A :=
  λ st, match body st with
        | (Normal a, st') => (Normal a, st')
        | (Throw e, st') => handler e st'
        | (Unmodelled, st') => (Unmodelled, st')
        end.

Declare Scope js_scope.
Delimit Scope js_scope with js.
Bind Scope js_scope with Js.

Notation "x <- c1 ;; c2" := (bind c1 (λ x, c2))
  (at level 100, c1 at next level, right associativity) : js_scope.
Notation "c1 ;; c2" := (bind c1 (λ _, c2))
  (at level 100, right associativity) : js_scope.

Local Open Scope js_scope.

(** The state a call leaves, and whether it returned. *)
Definition exec {A} (m : Js A) (st : State) : State := snd (m st).
Definition returns {A} (m : Js A) (st : State) : Prop :=
  ∃ a, fst (m st) = Normal a.

(** *** Primitive operations *)

(** [v.k]: reading a property of [null] or [undefined] is a [TypeError]; a
    number, boolean, string or array has none of the properties read here. *)
Definition get_prop (v : JsVal) (k : string) : Js JsVal :=
  match v with
  | JUndefined | JNull => throw TypeError
  | JObj fields => ret (assoc k fields)
  | _ => ret JUndefined
  end.

(** [v.toUpperCase()]: only a string has the method. *)
Definition call_toUpperCase (v : JsVal) : Js string :=
  match v with
  | JStr s => ret (toUpperCase s)
  | _ => throw TypeError
  end.

(** A write to one of the elements of [initElements]. *)
Definition on_element (id : ElId) (f : Element → Element) : Js unit :=
  modify (on_document (λ d, with_element (alter f id (element d)) d)).

(** A write to a part of the card at position [i]. *)
Definition on_card (i : nat) (p : Part) (f : Element → Element) : Js unit :=
  modify (on_document (λ d, with_priceCards (alter (on_part p f) i (priceCards d)) d)).

(** [document.querySelector(`.price-card[data-app="${app}"]`)]. The card
    found is referred to by its position among the price cards, which are in
    document order. What the selector is depends on the identifier:
    - an identifier that stays inside the quotes gives
      [.price-card[data-app="app"]], which selects the first price card whose
      [data-app] attribute is the identifier;
    - an identifier [v] that stays inside the quotes, then a double quote,
      [],.price-card[data-app=], a double quote and another such identifier
      [w] give [.price-card[data-app="v"],.price-card[data-app="w"]], which
      selects the first price card whose [data-app] is [v] or [w];
    - an identifier [v] that stays inside the quotes, then a double quote
      and one letter or more give text that is no selector, and a
      [SyntaxError];
    - any other identifier gives a selector that is not modelled. *)
Definition querySelector_card (app : string) : Js (option nat) :=
  match card_selector app with
  | AttrEquals v =>
      gets (λ st, fst <$> list_find (λ c, data_app c = Some v)
                            (priceCards (document st)))
  | AttrEither v w =>
      gets (λ st, fst <$> list_find (λ c, data_app c = Some v ∨ data_app c = Some w)
                            (priceCards (document st)))
  | Invalid => throw SyntaxError
  | Other => unmodelled
  end.

(** The price card that the selector finds for an identifier that stays
    inside the quotes. *)
Definition find_card (app : string) (st : State) : option (nat * Card) :=
  if selector_safe app
  then list_find (λ c, data_app c = Some app) (priceCards (document st))
  else None.

(** [fetch(url, {method, headers, body})], up to the [await]. *)
Definition fetch (url method : string) (headers : list (string * string))
    (body : string) (k : Continuation) : Js unit :=
  modify (on_window (λ w,
    with_fetches (fetches w ++ [mkFetch url method headers body k false]) w)).

(** [new WebSocket(`ws://${host}/ws/${taskId}`)]: the new socket's
    position. The constructor parses the URL and throws a [SyntaxError] when
    it has a fragment, which starts at the first [#]. The host is
    [window.location.host], the host and port of the page, which holds no
    [#]: the URL has a fragment when the task identifier has a [#]. The rest
    of the identifier is taken into the path or the query, whatever it is.
    The page is taken to be served over [http:], where a [ws:] URL is
    allowed. *)
Definition new_WebSocket (host taskId : string) : Js nat :=
  if has_hash taskId then throw SyntaxError
  else
    λ st, (Normal (length (sockets (window st))),
           on_window (λ w,
             with_sockets
               (sockets w ++ [mkSocket ("ws://" ++ host ++ "/ws/" ++ taskId) None false])
               w) st).

(** [socket.onmessage = listener] *)
Definition set_onmessage (id : nat) (l : Listener) : Js unit :=
  modify (on_window (λ w,
    with_sockets (alter (λ s, mkSocket (ws_url s) (Some l) (ws_closed s)) id (sockets w)) w)).

(** [socket.close()] *)
Definition ws_close (id : nat) : Js unit :=
  modify (on_window (λ w,
    with_sockets (alter (λ s, mkSocket (ws_url s) (ws_onmessage s) true) id (sockets w)) w)).

(** [setTimeout(callback, delay)] *)
Definition setTimeout (callback : Callback) (delay : Z) : Js unit :=
  modify (on_window (λ w, with_timers (timers w ++ [mkTimer delay callback false]) w)).

(** [response.json()] after [await fetch(...)] *)
Definition response_json (o : FetchOutcome) : Js JsVal :=
  match o with
  | Rejected => throw NetworkError
  | Resolved None => throw SyntaxError
  | Resolved (Some data) => ret data
  end.

(** [JSON.parse(event.data)]: a frame that is not JSON text is [None]. *)
Definition JSON_parse (data : option JsVal) : Js JsVal :=
  match data with
  | None => throw SyntaxError
  | Some v => ret v
  end.

(** ** The methods of [PriceHunter] *)

(** [capitalize(str)]: [str.charAt(0).toUpperCase() + str.slice(1)]; a value
    that is not a string has no [charAt]. *)
Definition capitalize (str : JsVal) : Js string :=
  match str with
  | JStr s => ret (capitalized s)
  | _ => throw TypeError
  end.

Definition setSearchLoading (loading : bool) : Js unit :=
  if loading then
    on_element btnText (classList_add "hidden") ;;
    on_element btnLoader (classList_remove "hidden") ;;
    on_element searchBtn (set_disabled true)
  else
    on_element btnText (classList_remove "hidden") ;;
    on_element btnLoader (classList_add "hidden") ;;
    on_element searchBtn (set_disabled false).

Definition showStatus (title message : string) : Js unit :=
  on_element statusSection (classList_remove "hidden") ;;
  on_element statusTitle (set_textContent (JStr title)) ;;
  on_element statusMessage (set_textContent (JStr message)).

(** The body of the [forEach] of [resetCards]. *)
Definition resetCard (card : Card) : Card :=
  on_part BuyBtn (classList_add "hidden")
    (on_part Badge (set_className ["status-badge"; "pending"])
      (on_part Badge (set_textContent (JStr "Pending"))
        (on_part ProductName (set_textContent (JStr "Waiting..."))
          (on_part Content (classList_add "hidden")
            (on_part Loading (classList_remove "hidden")
              (on_part Self (classList_remove "best-price") card)))))).

Definition resetCards : Js unit :=
  modify (on_document (λ d, with_priceCards (resetCard <$> priceCards d) d)).

Definition setCardSearching (app : JsVal) : Js unit :=
  card <- querySelector_card (ToString app) ;;
  match card with
  | None => ret tt
  | Some card =>
      on_card card Badge (set_textContent (JStr "Searching")) ;;
      on_card card Badge (set_className ["status-badge"; "searching"]) ;;
      on_card card ProductName (set_textContent (JStr "Searching..."))
  end.

Definition updateCard (app result : JsVal) : Js unit :=
  card <- querySelector_card (ToString app) ;;
  match card with
  | None => ret tt
  | Some card =>
      on_card card Loading (classList_add "hidden") ;;
      found <- get_prop result "found" ;;
      price <- get_prop result "price" ;;
      (if truthy (js_and found price) then
         on_card card Content (classList_remove "hidden") ;;
         on_card card PriceValue (set_textContent price) ;;
         currentProduct <- gets (λ st, currentProduct (this st)) ;;
         on_card card ProductName (set_textContent currentProduct) ;;
         on_card card Badge (set_textContent (JStr "Found")) ;;
         on_card card Badge (set_className ["status-badge"; "found"]) ;;
         on_card card BuyBtn (classList_remove "hidden")
       else
         on_card card Content (classList_remove "hidden") ;;
         on_card card PriceValue (set_textContent (JStr "--")) ;;
         error <- get_prop result "error" ;;
         on_card card ProductName (set_textContent (js_or error (JStr "Not found"))) ;;
         on_card card Badge (set_textContent (JStr "Error")) ;;
         on_card card Badge (set_className ["status-badge"; "error"])) ;;
      modify (on_this (λ o, with_results (<[ToString app := result]> (results o)) o))
  end.

(** The currency prefix of the best price, byte for byte as in the source. *)
Definition rupee : string := "â‚¹".

Definition handleSearchComplete (data : JsVal) : Js unit :=
  setSearchLoading false ;;
  on_element statusSection (classList_add "hidden") ;;
  best <- get_prop data "best" ;;
  if truthy best then
    modify (on_this (λ o, with_results (<["best" := best]> (results o)) o)) ;;
    best_app <- get_prop best "app" ;;
    name <- capitalize best_app ;;
    on_element bestApp (set_textContent (JStr name)) ;;
    best_price <- get_prop best "price" ;;
    on_element bestPrice (set_textContent (JStr (rupee ++ ToString best_price))) ;;
    name' <- capitalize best_app ;;
    on_element bestAppBtn (set_textContent (JStr name')) ;;
    on_element bestDeal (classList_remove "hidden") ;;
    bestCard <- querySelector_card (ToString best_app) ;;
    match bestCard with
    | Some bestCard => on_card bestCard Self (classList_add "best-price")
    | None => ret tt
    end
  else ret tt.

(** The three [if] statements of [handleUpdate], one definition each. *)
Definition handleUpdate_current_app (data : JsVal) : Js unit :=
  current_app <- get_prop data "current_app" ;;
  if truthy current_app then
    name <- capitalize current_app ;;
    upper <- call_toUpperCase current_app ;;
    currentProduct <- gets (λ st, currentProduct (this st)) ;;
    showStatus
      ("Searching on " ++ name ++ "...")
      ("Your phone is searching " ++ upper ++ " for " ++ quote
         ++ ToString currentProduct ++ quote) ;;
    setCardSearching current_app
  else ret tt.

Definition handleUpdate_app_complete (data : JsVal) : Js unit :=
  app_complete <- get_prop data "app_complete" ;;
  result <- get_prop data "result" ;;
  if truthy (js_and app_complete result) then updateCard app_complete result
  else ret tt.

Definition handleUpdate_status (data : JsVal) : Js unit :=
  status <- get_prop data "status" ;;
  if strict_eq_str status "completed" then handleSearchComplete data
  else ret tt.

Definition handleUpdate (data : JsVal) : Js unit :=
  handleUpdate_current_app data ;;
  handleUpdate_app_complete data ;;
  handleUpdate_status data.

(** The [onmessage] listener that [connectWebSocket] installs. *)
Definition onmessage_search (event_data : option JsVal) : Js unit :=
  data <- JSON_parse event_data ;;
  handleUpdate data.

Definition connectWebSocket (taskId : JsVal) : Js unit :=
  host <- gets (λ st, location_host (window st)) ;;
  socket <- new_WebSocket host (ToString taskId) ;;
  modify (on_this (with_ws (Some socket))) ;;
  set_onmessage socket SearchListener.

(** [startSearch], up to [await fetch(...)]. *)
Definition startSearch : Js unit :=
  value <- gets (λ st, productInput_value (document st)) ;;
  let product := trim value in
  if negb (truthy (JStr product)) then
    modify (on_document (with_focused true))
  else
    modify (on_this (with_currentProduct (JStr product))) ;;
    modify (on_this (with_results ∅)) ;;
    setSearchLoading true ;;
    showStatus "Connecting to your phone..." "Starting search..." ;;
    on_element resultsSection (classList_remove "hidden") ;;
    resetCards ;;
    on_element bestDeal (classList_add "hidden") ;;
    fetch "/search" "POST" [("Content-Type", "application/json")]
      (stringify (JObj [("product", JStr product)])) InStartSearch.

(** [startSearch], from the response of the fetch on: the rest of the [try]
    block and its [catch]. *)
Definition startSearch_resume (o : FetchOutcome) : Js unit :=
  try_catch
    (data <- response_json o ;;
     task_id <- get_prop data "task_id" ;;
     modify (on_this (with_currentTaskId task_id)) ;;
     connectWebSocket task_id)
    (λ error,
       showStatus "Connection failed" "Could not connect to server. Is it running?" ;;
       setSearchLoading false).

Definition showOrderModal (app : JsVal) : Js unit :=
  modify (on_this (with_selectedOrderApp app)) ;;
  name <- capitalize app ;;
  on_element orderApp (set_textContent (JStr name)) ;;
  currentProduct <- gets (λ st, currentProduct (this st)) ;;
  on_element orderProduct (set_textContent currentProduct) ;;
  on_element orderModal (classList_remove "hidden").

Definition hideOrderModal : Js unit :=
  on_element orderModal (classList_add "hidden").

(** The callbacks given to [setTimeout]. *)
Definition run_callback (c : Callback) : Js unit :=
  match c with
  | HideOrderStatusModal => on_element orderStatusModal (classList_add "hidden")
  end.

(** The [onmessage] listener of the order socket [orderWs]. *)
Definition onmessage_order (orderWs : nat) (event_data : option JsVal) : Js unit :=
  update <- JSON_parse event_data ;;
  status <- get_prop update "status" ;;
  if strict_eq_str status "completed" then
    on_element orderStatusTitle (set_textContent (JStr "âœ… Order Placed!")) ;;
    on_element orderStatusMsg
      (set_textContent (JStr "Your order has been placed successfully!")) ;;
    setTimeout HideOrderStatusModal 3000 ;;
    ws_close orderWs
  else if strict_eq_str status "error" then
    on_element orderStatusTitle (set_textContent (JStr "âŒ Order Failed")) ;;
    error <- get_prop update "error" ;;
    on_element orderStatusMsg
      (set_textContent (js_or error (JStr "Failed to place order"))) ;;
    setTimeout HideOrderStatusModal 3000 ;;
    ws_close orderWs
  else ret tt.

(** [placeOrder], up to [await fetch(...)]. *)
Definition placeOrder : Js unit :=
  hideOrderModal ;;
  on_element orderStatusModal (classList_remove "hidden") ;;
  on_element orderStatusTitle (set_textContent (JStr "ðŸ“¦ Placing Order...")) ;;
  selectedOrderApp <- gets (λ st, selectedOrderApp (this st)) ;;
  name <- capitalize selectedOrderApp ;;
  on_element orderStatusMsg
    (set_textContent (JStr ("Automating order on " ++ name ++ "..."))) ;;
  currentProduct <- gets (λ st, currentProduct (this st)) ;;
  fetch "/order" "POST" [("Content-Type", "application/json")]
    (stringify (JObj [("product", currentProduct); ("app", selectedOrderApp)]))
    InPlaceOrder.

(** [placeOrder], from the response of the fetch on. *)
Definition placeOrder_resume (o : FetchOutcome) : Js unit :=
  try_catch
    (data <- response_json o ;;
     task_id <- get_prop data "task_id" ;;
     host <- gets (λ st, location_host (window st)) ;;
     orderWs <- new_WebSocket host (ToString task_id) ;;
     set_onmessage orderWs OrderListener)
    (λ error,
       on_element orderStatusTitle (set_textContent (JStr "âŒ Error")) ;;
       on_element orderStatusMsg
         (set_textContent (JStr "Failed to communicate with server")) ;;
       setTimeout HideOrderStatusModal 3000).

(** [new PriceHunter()] on a page served from [host]. *)
Definition constructor (host : string) (page : Document) : State :=
  mkState (mkFields JNull JNull None ∅ JUndefined) page (mkWindow host [] [] []).

(** ** The event loop *)

(** What can happen to the page once [bindEvents] has run: the user acts on it,
    a fetch settles, a frame arrives on a socket, a timer fires. *)
Inductive Event : Type :=
| TypeProduct (text : string)    (* the product input is edited *)
| ClickSearch                    (* click on #searchBtn *)
| KeypressEnter                  (* keypress of Enter in #productInput *)
| ClickBuy (card : nat)          (* click on the .btn-buy of a card *)
| ClickBuyBest                   (* click on #buyBestBtn *)
| ClickCancel                    (* click on #cancelOrder or .modal-close *)
| ClickConfirm                   (* click on #confirmOrder *)
| FetchSettles (request : nat) (o : FetchOutcome)
| MessageArrives (socket : nat) (event_data : option JsVal)
| TimerFires (timer : nat).

Definition from_option (o : option string) : JsVal :=
  match o with
  | Some s => JStr s
  | None => JUndefined
  end.

(** The listener of [buyBestBtn]. *)
Definition onclick_buyBest : Js unit :=
  best <- gets (λ st, default JUndefined (results (this st) !! "best")) ;;
  if truthy best then
    best_app <- get_prop best "app" ;;
    showOrderModal best_app
  else ret tt.

(** The continuation of an [await fetch(...)]. *)
Definition resume (k : Continuation) (o : FetchOutcome) : Js unit :=
  match k with
  | InStartSearch => startSearch_resume o
  | InPlaceOrder => placeOrder_resume o
  end.

Definition settle_fetch (i : nat) (st : State) : State :=
  on_window (λ w,
    with_fetches
      (alter (λ f, mkFetch (fetch_url f) (fetch_method f) (fetch_headers f)
                     (fetch_body f) (fetch_resumes f) true) i (fetches w)) w) st.

Definition fire_timer (i : nat) (st : State) : State :=
  on_window (λ w,
    with_timers
      (alter (λ t, mkTimer (timer_delay t) (timer_callback t) true) i (timers w)) w) st.

(** One turn of the event loop: the listener registered for the event runs to
    its end; an exception it does not catch ends it there. A disabled button
    receives no click; a closed socket delivers no frame; a fetch settles
    once and a timer fires once. *)
Definition dispatch (e : Event) (st : State) : State :=
  match e with
  | TypeProduct text => on_document (with_value text) st
  | ClickSearch =>
      if disabled (element (document st) searchBtn) then st else exec startSearch st
  | KeypressEnter => exec startSearch st
  | ClickBuy i =>
      match priceCards (document st) !! i with
      | Some card => exec (showOrderModal (from_option (buy_data_app card))) st
      | None => st
      end
  | ClickBuyBest => exec onclick_buyBest st
  | ClickCancel => exec hideOrderModal st
  | ClickConfirm => exec placeOrder st
  | FetchSettles i o =>
      match fetches (window st) !! i with
      | Some f =>
          if fetch_settled f then st
          else exec (resume (fetch_resumes f) o) (settle_fetch i st)
      | None => st
      end
  | MessageArrives i event_data =>
      match sockets (window st) !! i with
      | Some s =>
          if ws_closed s then st
          else match ws_onmessage s with
               | Some SearchListener => exec (onmessage_search event_data) st
               | Some OrderListener => exec (onmessage_order i event_data) st
               | None => st
               end
      | None => st
      end
  | TimerFires i =>
      match timers (window st) !! i with
      | Some t =>
          if timer_fired t then st
          else exec (run_callback (timer_callback t)) (fire_timer i st)
      | None => st
      end
  end.

(** A run of the event loop. *)
Definition run (events : list Event) (st : State) : State :=
  foldl (λ st e, dispatch e st) st events.

(** The searches in flight: the [/search] requests that have not settled. *)
Definition searches_in_flight (st : State) : list Fetch :=
  filter (λ f, fetch_url f = "/search" ∧ fetch_settled f = false) (fetches (window st)).

(** ** A page *)

(** A price card as the page first shows it. *)
Definition blank_card (app : string) : Card :=
  mkCard (Some app) (Some app) (λ p,
    match p with
    | Self => mkElement ["price-card"] "" false
    | Loading => mkElement ["price-loading"] "" false
    | Content => mkElement ["price-content"; "hidden"] "" false
    | PriceValue => mkElement ["price-value"] "--" false
    | ProductName => mkElement ["product-name"] "Waiting..." false
    | Badge => mkElement ["status-badge"; "pending"] "Pending" false
    | BuyBtn => mkElement ["btn-buy"; "hidden"] "Buy" false
    end).

(** A page with one card for each supported platform, its sections hidden. *)
Definition page : Document :=
  mkDocument "" false
    (λ id,
       match id with
       | btnLoader | statusSection | resultsSection | bestDeal
       | orderModal | orderStatusModal => mkElement ["hidden"] "" false
       | _ => mkElement [] "" false
       end)
    (blank_card <$> ["amazon"; "flipkart"; "blinkit"; "zepto"]).

Definition fresh : State := constructor "localhost:8000" page.

(** The page in the middle of a search for milk: the request was answered
    with task [t1] and the push channel of the task is open. *)
Definition searching : State :=
  run [TypeProduct " milk "; ClickSearch;
       FetchSettles 0 (Resolved (Some (JObj [("task_id", JStr "t1")])))] fresh.

(** The page with the order dialog open on the best offer of that search. *)
Definition ordering : State :=
  run [MessageArrives 0
         (Some (JObj [("status", JStr "completed");
                      ("best", JObj [("app", JStr "flipkart"); ("price", JNum 79999)])]));
       ClickBuyBest] searching.

(** The page once that order was confirmed and its task [t2] is waiting for
    the terminal order event on socket 1. *)
Definition ordered : State :=
  run [ClickConfirm;
       FetchSettles 1 (Resolved (Some (JObj [("task_id", JStr "t2")])))] ordering.

(** A method keeps a property of the state, whether it returns or throws. *)
Definition preserves {A} (P : State → Prop) (m : Js A) : Prop :=
  ∀ st, P st → P (exec m st).

(** The socket at position [i] is [s]. *)
Definition has_socket (i : nat) (s : Socket) (st : State) : Prop :=
  sockets (window st) !! i = Some s.

(** The search button is disabled. *)
Definition search_locked (st : State) : Prop :=
  disabled (element (document st) searchBtn) = true.

(** The elements of the status banner, which [showStatus] writes. *)
Definition status_banner (id : ElId) : Prop :=
  id = statusSection ∨ id = statusTitle ∨ id = statusMessage.

(** ** Winner selection *)

Module Orchestrator.

(** Modelled from the spec: the search orchestrator is not part of the
    sources; a [ProbeResult] is what a probe adapter returns, a found price
    with its label or a failure reason. *)
Inductive ProbeResult : Type :=
| Found (price : Z) (label : string)
| NotFound (error : string).

(** Modelled from the spec: the [Offer], a storefront identifier and a
    price. *)
Record Offer : Type := mkOffer {
  offer_app : string;
  offer_price : Z
}.

(** Modelled from the spec: a probe settles and its result is recorded
    against the task, in the task's collection of per-storefront results. *)
Definition record_result (task : gmap string ProbeResult)
    (settled : string * ProbeResult) : gmap string ProbeResult :=
  <[settled.1 := settled.2]> task.

(** Modelled from the spec: the task's results once every probe has settled,
    the probes settling in the order of the list. *)
Definition settle_all (completions : list (string * ProbeResult))
    : gmap string ProbeResult :=
  foldl record_result ∅ completions.

(** Modelled from the spec: the better of the offer held so far and the
    price found by the next storefront in precedence order; the next
    storefront wins only with a strictly lower price. *)
Definition consider (task : gmap string ProbeResult) (best : option Offer)
    (storefront : string) : option Offer :=
  match task !! storefront with
  | Some (Found price _) =>
      match best with
      | Some b => if price <? offer_price b then Some (mkOffer storefront price) else best
      | None => Some (mkOffer storefront price)
      end
  | _ => best
  end.

(** Modelled from the spec: the offer of a search task, the minimum price
    among the found results, ties broken by the fixed storefront precedence
    order [config]; absent when no storefront found the product. *)
Definition select_offer (config : list string) (task : gmap string ProbeResult)
    : option Offer :=
  foldl (consider task) None config.

(** Modelled from the spec: the offer carried by the terminal event of a
    search whose probes settled in the order of [completions]. *)
Definition terminal_offer (config : list string)
    (completions : list (string * ProbeResult)) : option Offer :=
  select_offer config (settle_all completions).

(** The position of a storefront in the precedence order. *)
Definition precedence (config : list string) (storefront : string) : option nat :=
  fst <$> list_find (λ s, s = storefront) config.

(** What [select_offer] holds once the storefronts of [config] have been
    considered: nothing if none of them found the product, otherwise an
    offer of a storefront at some position [i] whose price is lower than
    every other found price, or equal to it at a position not before [i]. *)
Definition selected (task : gmap string ProbeResult) (config : list string)
    (best : option Offer) : Prop :=
  match best with
  | None => ∀ j sf p l, config !! j = Some sf → task !! sf ≠ Some (Found p l)
  | Some o =>
      ∃ i l, config !! i = Some (offer_app o) ∧
        task !! offer_app o = Some (Found (offer_price o) l) ∧
        ∀ j sf p l', config !! j = Some sf → task !! sf = Some (Found p l') →
          offer_price o < p ∨ (offer_price o = p ∧ (i ≤ j)%nat)
  end.

End Orchestrator.

(** The example of the specification: storefront A does not find the product,
    B and C find it at 79999 and D at 81000; the probes settle in the order
    D, C, A, B. *)
Definition iphone_completions : list (string * Orchestrator.ProbeResult) :=
  [("D", Orchestrator.Found 81000 "iPhone 15");
   ("C", Orchestrator.Found 79999 "iPhone 15");
   ("A", Orchestrator.NotFound "no match");
   ("B", Orchestrator.Found 79999 "iPhone 15")].

(** ** Views of the state *)

(** What [updateCard] writes on the card it finds, for a result [r] and the
    current product. *)
Definition rendered (currentProduct : JsVal) (r : list (string * JsVal))
    (card : Card) : Card :=
  let card := on_part Loading (classList_add "hidden") card in
  if truthy (assoc "found" r) && truthy (assoc "price" r) then
    on_part BuyBtn (classList_remove "hidden")
      (on_part Badge (set_className ["status-badge"; "found"])
        (on_part Badge (set_textContent (JStr "Found"))
          (on_part ProductName (set_textContent currentProduct)
            (on_part PriceValue (set_textContent (assoc "price" r))
              (on_part Content (classList_remove "hidden") card)))))
  else
    on_part Badge (set_className ["status-badge"; "error"])
      (on_part Badge (set_textContent (JStr "Error"))
        (on_part ProductName
           (set_textContent (js_or (assoc "error" r) (JStr "Not found")))
          (on_part PriceValue (set_textContent (JStr "--"))
            (on_part Content (classList_remove "hidden") card)))).

(** Whether the [current_app] of an update, if it has one, is a string that
    stays inside the quotes of the selector. *)
Definition current_app_safe (fields : list (string * JsVal)) : Prop :=
  truthy (assoc "current_app" fields) = true →
  ∃ app, assoc "current_app" fields = JStr app ∧ selector_safe app = true.

(** Whether the identifier that the update gives to [updateCard], if it
    gives one, stays inside the quotes of the selector. *)
Definition app_complete_safe (fields : list (string * JsVal)) : Prop :=
  truthy (js_and (assoc "app_complete" fields) (assoc "result" fields)) = true →
  selector_safe (ToString (assoc "app_complete" fields)) = true.

(** The elements that the search writes, and those of the order dialogs. *)
Definition search_elements : list ElId :=
  [searchBtn; btnText; btnLoader; statusSection; statusTitle; statusMessage;
   bestDeal; bestApp; bestPrice; bestAppBtn].

Definition order_elements : list ElId :=
  [orderModal; orderApp; orderProduct; orderStatusModal; orderStatusTitle;
   orderStatusMsg].


(** [st] differs from [st0] at most in [this.selectedOrderApp], in the
    requests, sockets and timers, and in the elements of the order dialogs. *)
Definition outside_order (st0 st : State) : Prop :=
  currentTaskId (this st) = currentTaskId (this st0) ∧
  currentProduct (this st) = currentProduct (this st0) ∧
  ws (this st) = ws (this st0) ∧
  results (this st) = results (this st0) ∧
  productInput_value (document st) = productInput_value (document st0) ∧
  productInput_focused (document st) = productInput_focused (document st0) ∧
  priceCards (document st) = priceCards (document st0) ∧
  ∀ id, id ∉ order_elements →
    element (document st) id = element (document st0) id.

(** The events of the order flow: the buy, cancel and confirm buttons, the
    response to [/order], a frame on an order socket, a timer. *)
Definition order_event (st : State) (e : Event) : Prop :=
  match e with
  | ClickBuy _ | ClickBuyBest | ClickCancel | ClickConfirm | TimerFires _ => True
  | FetchSettles i _ =>
      ∃ f, fetches (window st) !! i = Some f ∧ fetch_resumes f = InPlaceOrder
  | MessageArrives i _ =>
      ∃ s, sockets (window st) !! i = Some s ∧ ws_onmessage s = Some OrderListener
  | _ => False
  end.

(** A frame that the order listener acts on: JSON text of an object whose
    status is ['completed'] or ['error']. *)
Definition terminal_frame (event_data : option JsVal) : bool :=
  match event_data with
  | Some (JObj update) =>
      strict_eq_str (assoc "status" update) "completed"
      || strict_eq_str (assoc "status" update) "error"
  | _ => false
  end.

(** The page after the order of milk failed: the order socket is closed and
    the timer that dismisses the dialog is pending. *)
Definition order_failed : State :=
  dispatch (MessageArrives 1 (Some (JObj [("status", JStr "error")]))) ordered.

(** The events that can enable the search button again: an update with
    status ['completed'], and a request that is rejected or whose response is
    not a JSON object, or is one whose task identifier has a [#]. *)
Definition may_unlock (e : Event) : bool :=
  match e with
  | MessageArrives _ (Some (JObj update)) =>
      strict_eq_str (assoc "status" update) "completed"
  | FetchSettles _ (Resolved (Some (JObj response))) =>
      has_hash (ToString (assoc "task_id" response))
  | FetchSettles _ _ => true
  | _ => false
  end.

(** * Proof tools *)

(** Unfolding of the monad and of the state accessors, for symbolic runs.
    The state records have primitive projections, so that a read of a field
    just written reduces at once and the state does not grow with every
    write. *)
Ltac js_run :=
  cbv beta iota zeta delta
    [exec returns bind ret throw gets modify try_catch
     unmodelled on_element on_card fetch new_WebSocket
     set_onmessage ws_close setTimeout get_prop capitalize call_toUpperCase
     response_json JSON_parse
     on_this on_document on_window
     with_currentTaskId with_currentProduct with_ws with_results
     with_selectedOrderApp
     with_value with_focused with_element with_priceCards
     with_fetches with_sockets with_timers
     this document window
     currentTaskId currentProduct ws results selectedOrderApp
     productInput_value productInput_focused element priceCards
     location_host fetches sockets timers] in *;
  cbn [fst snd fmap option_fmap option_map] in *.

(** Membership in a list of distinct constructors that excludes the one at
    hand. *)
Ltac inv_elem H :=
  repeat (apply elem_of_cons in H as [H|H]; [discriminate H|]);
  by apply elem_of_nil in H.

(** * Properties *)

(** ** Conversions *)

Example stringify_search_body :
  stringify (JObj [("product", JStr "milk 1l"); ("app", JUndefined)])
  = "{" ++ quote ++ "product" ++ quote ++ ":" ++ quote ++ "milk 1l" ++ quote ++ "}".
Proof. reflexivity. Qed.

Example ToString_examples :
  ToString (JNum 79999) = "79999" ∧ ToString (JNum (-5)) = "-5" ∧
  ToString (JArr [JStr "a"; JNull; JNum 2]) = "a,,2".
Proof. repeat split; vm_compute; reflexivity. Qed.

(** Numbers are doubles and print as [Number::toString] has them: the
    fewest digits that denote the double, and an exponent from 1e21 on and
    below 1e-6. *)
Example Number_toString_examples :
  ToString (JNum 54.5) = "54.5" ∧
  ToString (JNum 0.1) = "0.1" ∧
  ToString (JNum 0.30000000000000004) = "0.30000000000000004" ∧
  ToString (JNum 1e21) = "1e+21" ∧
  ToString (JNum 1000000000000000000000) = "1e+21" ∧
  ToString (JNum 120000000000000000000) = "120000000000000000000" ∧
  ToString (JNum 1180591620717411303424) = "1.1805916207174113e+21" ∧
  ToString (JNum 9007199254740993) = "9007199254740992" ∧
  ToString (JNum 0.000001) = "0.000001" ∧
  ToString (JNum (-1e-7)) = "-1e-7" ∧
  ToString (JNum 5e-324) = "5e-324" ∧
  ToString (JNum 1.7976931348623157e308) = "1.7976931348623157e+308" ∧
  ToString (JNum neg_infinity) = "-Infinity" ∧
  ToString (JNum (-0)%float) = "0" ∧
  truthy (JNum (-0)%float) = false ∧ truthy (JNum 0.5) = true.
Proof. split_and!; vm_compute; reflexivity. Qed.

Example trim_example : trim "  iPhone 15 " = "iPhone 15".
Proof. vm_compute. reflexivity. Qed.

(** [trim] removes the white space of Unicode: here a no-break space, an
    ideographic space and a line separator. *)
Example trim_unicode :
  trim (encode 160 ++ encode 12288 ++ "milk 1l" ++ encode 8232) = "milk 1l" ∧
  trim (encode 160 ++ encode 65279) = "".
Proof. split; vm_compute; reflexivity. Qed.

(** The case mapping is that of Unicode: a letter with a diaeresis, a sharp
    s, which becomes two letters, a ligature, a letter outside the basic
    plane. A string that starts outside the basic plane is capitalized to
    itself. *)
Example toUpperCase_examples :
  toUpperCase "amazon" = "AMAZON" ∧
  toUpperCase "ñu straße" = "ÑU STRASSE" ∧
  capitalized "éclair" = "Éclair" ∧
  capitalized "ßa" = "SSa" ∧
  capitalized "ﬁsh" = "FIsh" ∧
  toUpperCase "𐐨" = "𐐀" ∧
  capitalized "𐐨a" = "𐐨a" ∧
  capitalized "" = "".
Proof. repeat split; vm_compute; reflexivity. Qed.

(** An unpaired surrogate is escaped in JSON text. *)
Example stringify_surrogate :
  stringify (JStr ("a" ++ encode 55357)) = quote ++ "a" ++ backslash ++ "ud83d" ++ quote.
Proof. vm_compute. reflexivity. Qed.

(** A string that starts with an ASCII character is capitalized by the
    upper case of that character. *)
Lemma capitalized_ascii (c : ascii) (rest : string) :
  (nat_of_ascii c < 128)%nat →
  capitalized (String c rest) = String (upper_ascii c) rest.
Proof.
  destruct c as [b0 b1 b2 b3 b4 b5 b6 [|]].
  - intros H. exfalso. revert H.
    destruct b0, b1, b2, b3, b4, b5, b6; vm_compute; lia.
  - intros _. destruct b0, b1, b2, b3, b4, b5, b6; vm_compute; reflexivity.
Qed.

Lemma truthy_js_and (a b : JsVal) : truthy (js_and a b) = truthy a && truthy b.
Proof. unfold js_and. by destruct (truthy a) eqn:E; rewrite ?E. Qed.

Lemma truthy_JStr (s : string) : truthy (JStr s) = true ↔ s ≠ "".
Proof.
  simpl. destruct (String.eqb_spec s ""); simpl; split; congruence.
Qed.

Lemma text_of_truthy (v : JsVal) : truthy v = true → text_of v = ToString v.
Proof. by destruct v. Qed.

(** ** Elements *)

Lemma has_class_add c el : has_class c (classList_add c el) = true.
Proof.
  unfold has_class, classList_add.
  destruct (bool_decide (c ∈ classList el)) eqn:E; [done|].
  apply bool_decide_eq_true. simpl. apply elem_of_app. right. apply list_elem_of_here.
Qed.

Lemma has_class_remove c el : has_class c (classList_remove c el) = false.
Proof.
  unfold has_class, classList_remove. apply bool_decide_eq_false. simpl.
  rewrite list_elem_of_filter. tauto.
Qed.

Lemma has_class_set_textContent c v el :
  has_class c (set_textContent v el) = has_class c el.
Proof. done. Qed.

Lemma has_class_set_disabled c b el :
  has_class c (set_disabled b el) = has_class c el.
Proof. done. Qed.

Lemma textContent_set v el : textContent (set_textContent v el) = text_of v.
Proof. done. Qed.

Lemma textContent_classList_add c el :
  textContent (classList_add c el) = textContent el.
Proof. unfold classList_add. by case_bool_decide. Qed.

Lemma textContent_classList_remove c el :
  textContent (classList_remove c el) = textContent el.
Proof. done. Qed.

Lemma textContent_set_className l el :
  textContent (set_className l el) = textContent el.
Proof. done. Qed.

Lemma disabled_set b el : disabled (set_disabled b el) = b.
Proof. done. Qed.

Lemma disabled_classList_add c el : disabled (classList_add c el) = disabled el.
Proof. unfold classList_add. by case_bool_decide. Qed.

Create Rewrite HintDb element.
#[global] Hint Rewrite has_class_add has_class_remove has_class_set_textContent
  has_class_set_disabled textContent_set textContent_classList_add
  textContent_classList_remove textContent_set_className disabled_set
  disabled_classList_add : element.

(** Reading an element, or a part of a card, after writes by name. *)
Ltac el_simpl :=
  repeat first
    [ rewrite fn_lookup_alter
    | rewrite fn_lookup_alter_ne by done
    | rewrite decide_True by done
    | progress cbn [part on_part data_app buy_data_app] ];
  autorewrite with element.

(** ** Price cards *)

(** A write to a part of a card leaves the [data-app] attribute alone, so the
    selector finds the same card before and after it. *)
Lemma list_find_alter_Some app (f : Card → Card) j (cards : list Card) i c :
  (∀ c, data_app (f c) = data_app c) →
  list_find (λ c, data_app c = Some app) cards = Some (i, c) →
  list_find (λ c, data_app c = Some app) (alter f j cards)
  = Some (i, if decide (j = i) then f c else c).
Proof.
  intros Hf H. rewrite list_find_Some in H. destruct H as (Hi & Hc & Hleast).
  rewrite list_find_Some. split_and!.
  - case_decide as Hj.
    + subst j. by rewrite list_lookup_alter_eq, Hi.
    + by rewrite list_lookup_alter_ne.
  - case_decide; by rewrite ?Hf.
  - intros k y Hk Hlt. destruct (decide (j = k)) as [->|Hne].
    + rewrite list_lookup_alter_eq in Hk.
      destruct (cards !! k) as [z|] eqn:Hz; simplify_eq/=.
      rewrite Hf. by eapply Hleast.
    + rewrite list_lookup_alter_ne in Hk by done. by eapply Hleast.
Qed.

Lemma list_find_alter_same app (f : Card → Card) (cards : list Card) i c :
  (∀ c, data_app (f c) = data_app c) →
  list_find (λ c, data_app c = Some app) cards = Some (i, c) →
  list_find (λ c, data_app c = Some app) (alter f i cards) = Some (i, f c).
Proof.
  intros Hf H. erewrite list_find_alter_Some by done. by rewrite decide_True.
Qed.

(** A card whose parts were written at position [i] is still the card the
    selector finds. *)
Ltac find_written_card H :=
  repeat (apply list_find_alter_same; [done|]); exact H.

(** ** Selectors *)

Lemma card_selector_safe (app : string) :
  selector_safe app = true → card_selector app = AttrEquals app.
Proof. unfold card_selector. by intros ->. Qed.

(** For an identifier that stays inside the quotes, [querySelector] looks
    for the card whose [data-app] is the identifier. *)
Lemma querySelector_card_safe (app : string) :
  selector_safe app = true →
  querySelector_card app
  = gets (λ st, fst <$> list_find (λ c, data_app c = Some app)
                          (priceCards (document st))).
Proof. intros H. unfold querySelector_card. by rewrite card_selector_safe. Qed.

Lemma find_card_safe (app : string) (st : State) :
  selector_safe app = true →
  find_card app st
  = list_find (λ c, data_app c = Some app) (priceCards (document st)).
Proof. unfold find_card. by intros ->. Qed.

Lemma find_card_Some (app : string) (st : State) (i : nat) (c : Card) :
  find_card app st = Some (i, c) →
  selector_safe app = true ∧
  list_find (λ c, data_app c = Some app) (priceCards (document st)) = Some (i, c).
Proof. unfold find_card. by destruct (selector_safe app). Qed.

(** [querySelector] writes nothing, whatever the selector. *)
Lemma querySelector_card_state (app : string) (st : State) :
  exec (querySelector_card app) st = st.
Proof. unfold querySelector_card. by destruct (card_selector app). Qed.

(** The storefronts of the page are identifiers that stay inside the
    quotes; one with a double quote does not. *)
Example selector_safe_examples :
  selector_safe "amazon" = true ∧ selector_safe "myntra" = true ∧
  selector_safe "big basket & co." = true ∧ selector_safe "café" = true ∧
  selector_safe ("a" ++ quote ++ "b") = false ∧
  selector_safe ("a" ++ backslash) = false.
Proof. repeat split; vm_compute; reflexivity. Qed.

(** ** The parts of [handleUpdate] *)

(** The first part returns when [current_app] is absent or falsy, or a
    string that stays inside the quotes of the selector, and writes nothing
    but the status banner and the price cards. *)
Lemma handleUpdate_current_app_returns (st : State) (fields : list (string * JsVal)) :
  current_app_safe fields →
  ∃ st1, handleUpdate_current_app (JObj fields) st = (Normal tt, st1) ∧
    this st1 = this st ∧ window st1 = window st ∧
    ∀ id, ¬ status_banner id → element (document st1) id = element (document st) id.
Proof.
  unfold status_banner, current_app_safe.
  unfold handleUpdate_current_app, showStatus, setCardSearching. js_run.
  destruct (truthy (assoc "current_app" fields)); [|by eexists].
  intros H. destruct (H eq_refl) as (s & -> & Hsafe). js_run.
  cbn [ToString]. rewrite (querySelector_card_safe s Hsafe). js_run.
  destruct (list_find _ _) as [[i c]|]; js_run;
    (eexists; split; [done|]); js_run; (split_and!; [done..|]);
    intros id Hid;
    rewrite !fn_lookup_alter_ne by (intros ?; subst; tauto); done.
Qed.

(** The second part returns when it has no card to look for, or looks for
    one with an identifier that stays inside the quotes; it writes nothing
    but the price cards and [this.results]. *)
Lemma handleUpdate_app_complete_returns (st : State) (fields : list (string * JsVal)) :
  app_complete_safe fields →
  ∃ st2, handleUpdate_app_complete (JObj fields) st = (Normal tt, st2) ∧
    window st2 = window st ∧
    element (document st2) = element (document st).
Proof.
  unfold app_complete_safe, handleUpdate_app_complete, updateCard. js_run.
  destruct (truthy (js_and _ _)) eqn:Hguard; [|by eexists].
  intros Hsafe. rewrite (querySelector_card_safe _ (Hsafe eq_refl)). js_run.
  destruct (list_find _ _) as [[i c]|]; js_run; [|by eexists].
  rewrite truthy_js_and in Hguard. apply andb_true_iff in Hguard as [_ Hr].
  destruct (assoc "result" fields) as [| |b|x|s|items|r]; try done; js_run;
    rewrite ?truthy_js_and; cbn [truthy andb]; js_run; try (by eexists).
  destruct (truthy (assoc "found" r) && _); js_run; by eexists.
Qed.

(** What [handleSearchComplete] leaves: the loading state cleared in every
    case, the best offer stored and shown when there is one, and neither
    [this.results] nor the best-deal panel written when there is none. *)
Lemma handleSearchComplete_spec (st : State) (fields : list (string * JsVal)) :
  let data := JObj fields in
  let st' := exec (handleSearchComplete data) st in
  (disabled (element (document st') searchBtn) = false ∧
   has_class "hidden" (element (document st') btnText) = false ∧
   has_class "hidden" (element (document st') btnLoader) = true ∧
   has_class "hidden" (element (document st') statusSection) = true) ∧
  (∀ best a, assoc "best" fields = JObj best → assoc "app" best = JStr a →
     (selector_safe a = true → returns (handleSearchComplete data) st) ∧
     results (this st') !! "best" = Some (JObj best) ∧
     textContent (element (document st') bestApp) = capitalized a ∧
     textContent (element (document st') bestPrice)
       = rupee ++ ToString (assoc "price" best) ∧
     textContent (element (document st') bestAppBtn) = capitalized a ∧
     has_class "hidden" (element (document st') bestDeal) = false) ∧
  (assoc "best" fields = JUndefined →
     returns (handleSearchComplete data) st ∧
     results (this st') = results (this st) ∧
     ∀ id, id ∈ [bestDeal; bestApp; bestPrice; bestAppBtn] →
       element (document st') id = element (document st) id).
Proof.
  intros data st'. subst st' data.
  unfold handleSearchComplete, setSearchLoading. js_run.
  split_and!.
  1-4: destruct (truthy (assoc "best" fields)); js_run;
       [destruct (assoc "best" fields) as [| | | | | |best]; js_run;
        try (by el_simpl);
        destruct (assoc "app" best) as [| | | |a| |]; js_run; try (by el_simpl);
        unfold querySelector_card; destruct (card_selector _); js_run;
        try (by el_simpl);
        destruct (list_find _ _) as [[i c]|]; js_run; by el_simpl
       |by el_simpl].
  - intros best a Hbest Happ. rewrite Hbest. cbn [truthy]. js_run.
    rewrite Happ. js_run. cbn [ToString]. split.
    + intros Hsafe. rewrite (querySelector_card_safe a Hsafe). js_run.
      destruct (list_find _ _) as [[i c]|]; js_run; by eexists.
    + unfold querySelector_card. destruct (card_selector a); js_run;
        try (destruct (list_find _ _) as [[i c]|]; js_run);
        (split_and!; [by rewrite lookup_insert_eq|by el_simpl..]).
  - intros Hbest. rewrite Hbest. cbn [truthy]. js_run.
    split_and!; [by eexists|done|].
    intros id Hid.
    rewrite !fn_lookup_alter_ne by (intros ?; subst; inv_elem Hid); done.
Qed.

(** ** The push channels *)

(** A write to the socket, or request, created last. *)
Lemma list_alter_snoc {A} (f : A → A) (l : list A) (x : A) :
  alter f (length l) (l ++ [x])%list = (l ++ [f x])%list.
Proof.
  induction l as [|y l IH]; [done|].
  cbn. f_equal. exact IH.
Qed.

(** Preservation through the monad. *)
Section preservation.
Context (P : State → Prop).

Lemma preserves_ret {A} (a : A) : preserves P (ret a).
Proof. by intros st. Qed.

Lemma preserves_throw {A} (e : JsError) : preserves P (@throw A e).
Proof. by intros st. Qed.

Lemma preserves_unmodelled {A} : preserves P (@unmodelled A).
Proof. by intros st. Qed.

Lemma preserves_querySelector_card (app : string) :
  preserves P (querySelector_card app).
Proof. intros st H. by rewrite querySelector_card_state. Qed.

Lemma preserves_gets {A} (f : State → A) : preserves P (gets f).
Proof. by intros st. Qed.

Lemma preserves_bind {A B} (m : Js A) (k : A → Js B) :
  preserves P m → (∀ a, preserves P (k a)) → preserves P (bind m k).
Proof.
  intros Hm Hk st HP. specialize (Hm st HP). unfold exec, bind in *.
  destruct (m st) as [[a|e|] st']; [by apply Hk|done..].
Qed.

Lemma preserves_bind_ret {A B} (a : A) (k : A → Js B) :
  preserves P (k a) → preserves P (bind (ret a) k).
Proof. intros Hk st HP. exact (Hk st HP). Qed.

Lemma preserves_try_catch {A} (body : Js A) (handler : JsError → Js A) :
  preserves P body → (∀ e, preserves P (handler e)) →
  preserves P (try_catch body handler).
Proof.
  intros Hm Hk st HP. specialize (Hm st HP). unfold exec, try_catch in *.
  destruct (body st) as [[a|e|] st']; [done|by apply Hk|done].
Qed.
End preservation.

(** What the listeners do to the sockets that are open. *)
Section sockets.
Context (i : nat) (s : Socket).

Lemma socket_on_element id f : preserves (has_socket i s) (on_element id f).
Proof. by intros st H. Qed.

Lemma socket_on_card j p f : preserves (has_socket i s) (on_card j p f).
Proof. by intros st H. Qed.

Lemma socket_on_this f : preserves (has_socket i s) (modify (on_this f)).
Proof. by intros st H. Qed.

Lemma socket_on_document f : preserves (has_socket i s) (modify (on_document f)).
Proof. by intros st H. Qed.

Lemma socket_fetch url method headers body k :
  preserves (has_socket i s) (fetch url method headers body k).
Proof. by intros st H. Qed.

Lemma socket_setTimeout callback delay :
  preserves (has_socket i s) (setTimeout callback delay).
Proof. by intros st H. Qed.

Lemma socket_get_prop v k : preserves (has_socket i s) (get_prop v k).
Proof. intros st H. by destruct v. Qed.

Lemma socket_capitalize v : preserves (has_socket i s) (capitalize v).
Proof. intros st H. by destruct v. Qed.

Lemma socket_call_toUpperCase v : preserves (has_socket i s) (call_toUpperCase v).
Proof. intros st H. by destruct v. Qed.

(** A socket that is opened takes the next position, and its listener is
    set there: the sockets before it are as they were. *)
Lemma socket_open host taskId l :
  preserves (has_socket i s)
    (bind (new_WebSocket host taskId) (λ socket, set_onmessage socket l)).
Proof.
  intros st H. unfold has_socket in *. js_run.
  destruct (has_hash taskId); js_run; [done|].
  rewrite list_alter_snoc. by apply lookup_app_l_Some.
Qed.

Lemma socket_connectWebSocket taskId :
  preserves (has_socket i s) (connectWebSocket taskId).
Proof.
  intros st H. unfold has_socket, connectWebSocket in *. js_run.
  destruct (has_hash _); js_run; [done|].
  rewrite list_alter_snoc. by apply lookup_app_l_Some.
Qed.

(** Closing another socket. *)
Lemma socket_close j : j ≠ i → preserves (has_socket i s) (ws_close j).
Proof.
  intros Hne st H. unfold has_socket in *. js_run.
  by rewrite list_lookup_alter_ne.
Qed.

End sockets.

Ltac kept :=
  repeat first
    [ apply preserves_ret | apply preserves_throw | apply preserves_gets
    | apply preserves_unmodelled | apply preserves_querySelector_card
    | apply socket_on_element | apply socket_on_card | apply socket_on_this
    | apply socket_on_document | apply socket_fetch | apply socket_setTimeout
    | apply socket_get_prop | apply socket_capitalize
    | apply socket_call_toUpperCase
    | apply socket_open | apply socket_connectWebSocket
    | apply socket_close; assumption
    | apply preserves_try_catch; [|intros ?]
    | apply preserves_bind; [|intros ?]
    | match goal with
      | |- preserves _ (match ?x with _ => _ end) => destruct x
      end ].

Lemma socket_handleUpdate i s data : preserves (has_socket i s) (handleUpdate data).
Proof. unfold handleUpdate. kept. Qed.

(** An open search socket stays as it is: the client closes order sockets
    only, and sets a listener only on the socket it has just opened. *)
Lemma search_socket_stays_open (e : Event) (st : State) (i : nat) (s : Socket) :
  ws_onmessage s = Some SearchListener →
  has_socket i s st →
  has_socket i s (dispatch e st).
Proof.
  intros Hl H.
  destruct e as [text| | |card| | | |request o|socket event_data|timer];
    cbn [dispatch].
  - done.
  - destruct (disabled _); [done|]. revert H. generalize st.
    change (preserves (has_socket i s) startSearch).
    unfold startSearch, setSearchLoading, showStatus. kept.
  - revert H. generalize st.
    change (preserves (has_socket i s) startSearch).
    unfold startSearch, setSearchLoading, showStatus. kept.
  - destruct (priceCards (document st) !! card) as [c|]; [|done].
    revert H. generalize st.
    change (preserves (has_socket i s) (showOrderModal (from_option (buy_data_app c)))).
    unfold showOrderModal. kept.
  - revert H. generalize st.
    change (preserves (has_socket i s) onclick_buyBest).
    unfold onclick_buyBest, showOrderModal. kept.
  - done.
  - revert H. generalize st.
    change (preserves (has_socket i s) placeOrder).
    unfold placeOrder, hideOrderModal. kept.
  - destruct (fetches (window st) !! request) as [f|]; [|done].
    destruct (fetch_settled f); [done|].
    assert (H' : has_socket i s (settle_fetch request st)) by done.
    revert H'. generalize (settle_fetch request st).
    change (preserves (has_socket i s) (resume (fetch_resumes f) o)).
    destruct (fetch_resumes f); cbn [resume].
    + unfold startSearch_resume, response_json, showStatus, setSearchLoading.
      kept.
    + unfold placeOrder_resume, response_json. kept.
  - destruct (sockets (window st) !! socket) as [s'|] eqn:Hs; [|done].
    destruct (ws_closed s'); [done|].
    destruct (ws_onmessage s') as [[]|] eqn:Hl'; [| |done].
    + revert H. generalize st.
      change (preserves (has_socket i s) (onmessage_search event_data)).
      unfold onmessage_search, JSON_parse. kept.
    + assert (Hne : socket ≠ i).
      { intros ->. unfold has_socket in H. congruence. }
      revert H. generalize st.
      change (preserves (has_socket i s) (onmessage_order socket event_data)).
      unfold onmessage_order, JSON_parse. kept.
  - destruct (timers (window st) !! timer) as [t|]; [|done].
    destruct (timer_fired t); [done|].
    destruct (timer_callback t). done.
Qed.

Lemma search_socket_open_after_run (events : list Event) (st : State) (i : nat) (s : Socket) :
  ws_onmessage s = Some SearchListener →
  has_socket i s st →
  has_socket i s (run events st).
Proof.
  intros Hl. revert st. unfold run.
  induction events as [|e events IH]; intros st H; [done|].
  cbn [foldl]. apply IH. by apply search_socket_stays_open.
Qed.

(** A frame on an open socket of [connectWebSocket] is parsed and handed to
    [handleUpdate]. *)
Lemma search_socket_routes_to_handleUpdate
    (st : State) (socket : nat) (s : Socket) (data : JsVal) :
  sockets (window st) !! socket = Some s →
  ws_onmessage s = Some SearchListener →
  ws_closed s = false →
  dispatch (MessageArrives socket (Some data)) st = exec (handleUpdate data) st.
Proof.
  intros Hs Hl Hc. unfold dispatch. by rewrite Hs, Hc, Hl.
Qed.

(** A frame on an open socket of [placeOrder] goes to the order listener. *)
Lemma order_socket_routes_to_listener
    (st : State) (socket : nat) (s : Socket) (event_data : option JsVal) :
  sockets (window st) !! socket = Some s →
  ws_onmessage s = Some OrderListener →
  ws_closed s = false →
  dispatch (MessageArrives socket event_data) st
  = exec (onmessage_order socket event_data) st.
Proof.
  intros Hs Hl Hc. unfold dispatch. by rewrite Hs, Hc, Hl.
Qed.

(** ** The search channel *)

(** C1, as the code has it: an update with status ['completed'] that arrives
    on the push channel of a search is handled as the terminal event when
    the storefront identifiers it carries for the earlier parts of
    [handleUpdate] stay inside the quotes of the card selector: its
    [current_app], if any, is such a string, and so is its [app_complete] if
    it comes with a result. [handleSearchComplete] then runs, on the state
    those parts leave; the search button is enabled again, its loader hidden
    and the status banner hidden. When the update carries
    [best = {app, price}], that object is stored as [results.best] and shown:
    the capitalized storefront, the price after the currency sign, the
    best-deal panel no longer hidden; and [handleUpdate] returns when the
    storefront stays inside the quotes. When [best] is absent,
    [handleSearchComplete] stores nothing and the elements of the best-deal
    panel are as they were before the update, so a hidden panel stays
    hidden. *)
Theorem C1_completed_update_is_terminal
    (st : State) (socket : nat) (s : Socket) (fields : list (string * JsVal)) :
  sockets (window st) !! socket = Some s →
  ws_onmessage s = Some SearchListener →
  ws_closed s = false →
  assoc "status" fields = JStr "completed" →
  current_app_safe fields →
  app_complete_safe fields →
  let data := JObj fields in
  let st1 := exec (handleUpdate_current_app data ;; handleUpdate_app_complete data) st in
  let st' := dispatch (MessageArrives socket (Some data)) st in
  handleUpdate data st = handleSearchComplete data st1 ∧
  st' = exec (handleSearchComplete data) st1 ∧
  (disabled (element (document st') searchBtn) = false ∧
   has_class "hidden" (element (document st') btnText) = false ∧
   has_class "hidden" (element (document st') btnLoader) = true ∧
   has_class "hidden" (element (document st') statusSection) = true) ∧
  (∀ best a, assoc "best" fields = JObj best → assoc "app" best = JStr a →
     (selector_safe a = true → returns (handleUpdate data) st) ∧
     results (this st') !! "best" = Some (JObj best) ∧
     textContent (element (document st') bestApp) = capitalized a ∧
     textContent (element (document st') bestPrice)
       = rupee ++ ToString (assoc "price" best) ∧
     textContent (element (document st') bestAppBtn) = capitalized a ∧
     has_class "hidden" (element (document st') bestDeal) = false) ∧
  (assoc "best" fields = JUndefined →
     returns (handleUpdate data) st ∧
     results (this st') = results (this st1) ∧
     ∀ id, id ∈ [bestDeal; bestApp; bestPrice; bestAppBtn] →
       element (document st') id = element (document st) id).
Proof.
  intros Hs Hl Hc Hstatus Htyped Hsafe data st1 st'.
  destruct (handleUpdate_current_app_returns st fields Htyped)
    as (sa & Ha & _ & _ & Hela).
  destruct (handleUpdate_app_complete_returns sa fields Hsafe)
    as (sb & Hb & _ & Helb).
  assert (Hst1 : st1 = sb).
  { subst st1 data. unfold exec, bind. by rewrite Ha, Hb. }
  assert (Hrun : handleUpdate data st = handleSearchComplete data sb).
  { subst data. unfold handleUpdate, bind. rewrite Ha, Hb.
    unfold handleUpdate_status. js_run. by rewrite Hstatus. }
  assert (Hframe : ∀ id, id ∈ [bestDeal; bestApp; bestPrice; bestAppBtn] →
            element (document sb) id = element (document st) id).
  { intros id Hid. rewrite Helb. apply Hela. unfold status_banner.
    intros [ -> | [ -> | -> ] ]; inv_elem Hid. }
  subst st'. rewrite (search_socket_routes_to_handleUpdate st socket s data Hs Hl Hc).
  unfold returns, exec. rewrite Hrun, Hst1. split; [done|]. split; [done|].
  destruct (handleSearchComplete_spec sb fields) as (Hload & Hbest & Hnone).
  split; [exact Hload|]. split; [exact Hbest|].
  intros Habsent. destruct (Hnone Habsent) as (? & ? & Hel).
  split_and!; [done..|]. intros id Hid. rewrite <- Hframe by done. by apply Hel.
Qed.

(** C1 at the terminal event of the search for milk, won by Flipkart at
    79999.5, in an update that also reports the last probe. *)
Lemma C1_witness :
  let best := [("app", JStr "flipkart"); ("price", JNum 79999.5)] in
  let fields := [("current_app", JStr "zepto"); ("app_complete", JStr "zepto");
                 ("result", JObj [("found", JBool false)]);
                 ("status", JStr "completed"); ("best", JObj best)] in
  let st' := dispatch (MessageArrives 0 (Some (JObj fields))) searching in
  returns (handleUpdate (JObj fields)) searching ∧
  disabled (element (document st') searchBtn) = false ∧
  results (this st') !! "best" = Some (JObj best) ∧
  textContent (element (document st') bestApp) = "Flipkart" ∧
  textContent (element (document st') bestPrice) = rupee ++ "79999.5" ∧
  has_class "hidden" (element (document st') bestDeal) = false.
Proof.
  intros best fields st'.
  destruct (C1_completed_update_is_terminal searching 0
              (mkSocket "ws://localhost:8000/ws/t1" (Some SearchListener) false)
              fields)
    as (_ & _ & (Hbtn & _) & Hbest & _).
  - vm_compute. reflexivity.
  - reflexivity.
  - reflexivity.
  - reflexivity.
  - intros _. exists "zepto". split; reflexivity.
  - intros _. reflexivity.
  - destruct (Hbest best "flipkart" eq_refl eq_refl)
      as (Hreturns & Hres & Happ & Hprice & _ & Hdeal).
    split_and!;
      [exact (Hreturns eq_refl)|exact Hbtn|exact Hres|exact Happ|exact Hprice
      |exact Hdeal].
Defined.

(** C1 as stated fails on a terminal update whose [current_app] has a double
    quote in it: [setCardSearching] gives [querySelector] text that is no
    selector, and the [SyntaxError] ends [handleUpdate] before the status is
    looked at. [handleSearchComplete], which would enable the search button,
    does not run, and the search stays in its loading state. *)
Lemma C1_counterexample :
  let data := JObj [("current_app", JStr ("a" ++ quote ++ "b"));
                    ("status", JStr "completed")] in
  let st' := dispatch (MessageArrives 0 (Some data)) searching in
  handleUpdate data searching = (Throw SyntaxError, st') ∧
  disabled (element (document st') searchBtn) = true ∧
  has_class "hidden" (element (document st') btnLoader) = false ∧
  has_class "hidden" (element (document st') statusSection) = false ∧
  disabled (element (document (exec (handleSearchComplete data) st')) searchBtn)
  = false.
Proof. repeat split; vm_compute; reflexivity. Qed.

(** C8, as the code has it: an update whose [current_app] is a non-empty
    string [app] that stays inside the quotes of the card selector shows the
    status banner with the capitalized storefront in its title and the
    upper-cased storefront and the product in its message, and marks the
    price card of [app] as started: badge ['Searching'] with classes
    [status-badge searching], product name ['Searching...'], every other part
    of that card and every other card as before. When no card has
    [data-app = app], the price cards are left as they were. The rest of
    [handleUpdate] then runs from that state. *)
Theorem C8_current_app_marks_card_searching
    (st : State) (fields : list (string * JsVal)) (app : string) :
  assoc "current_app" fields = JStr app →
  app ≠ "" →
  selector_safe app = true →
  let data := JObj fields in
  let st1 := exec (handleUpdate_current_app data) st in
  handleUpdate data st
    = (handleUpdate_app_complete data ;; handleUpdate_status data) st1 ∧
  has_class "hidden" (element (document st1) statusSection) = false ∧
  textContent (element (document st1) statusTitle)
    = "Searching on " ++ capitalized app ++ "..." ∧
  textContent (element (document st1) statusMessage)
    = "Your phone is searching " ++ toUpperCase app ++ " for " ++ quote
        ++ ToString (currentProduct (this st)) ++ quote ∧
  (∀ i card, find_card app st = Some (i, card) →
     ∃ card', find_card app st1 = Some (i, card') ∧
       textContent (part card' Badge) = "Searching" ∧
       classList (part card' Badge) = ["status-badge"; "searching"] ∧
       textContent (part card' ProductName) = "Searching..." ∧
       (∀ p, p ≠ Badge → p ≠ ProductName → part card' p = part card p) ∧
       (∀ j, j ≠ i →
          priceCards (document st1) !! j = priceCards (document st) !! j)) ∧
  (find_card app st = None →
     priceCards (document st1) = priceCards (document st)).
Proof.
  intros Hcur Hne Hsafe data st1.
  assert (Ht : truthy (JStr app) = true) by by apply truthy_JStr.
  assert (Hrun : handleUpdate_current_app data st = (Normal tt, st1)).
  { subst st1 data. unfold handleUpdate_current_app, showStatus, setCardSearching.
    js_run. rewrite Hcur, Ht. js_run. cbn [ToString].
    rewrite (querySelector_card_safe app Hsafe). js_run.
    by destruct (list_find _ _) as [[i c]|]. }
  split; [unfold handleUpdate; unfold bind at 1; by rewrite Hrun|].
  clear Hrun. subst st1 data. rewrite !(find_card_safe app) by done.
  unfold handleUpdate_current_app, showStatus, setCardSearching.
  js_run. rewrite Hcur, Ht. js_run. cbn [ToString].
  rewrite (querySelector_card_safe app Hsafe). js_run.
  destruct (list_find _ _) as [[i c]|] eqn:Hfind; js_run.
  - split_and!; try by el_simpl.
    intros ? ? [= <- <-]. eexists. split; [find_written_card Hfind|].
    split_and!; try by el_simpl.
    + intros p ??. by el_simpl.
    + intros j ?. by rewrite !list_lookup_alter_ne.
  - split_and!; try by el_simpl.
Qed.

(** The guard [if (data.current_app)] takes an empty identifier for an absent
    one: nothing is written. *)
Lemma empty_current_app_is_ignored (st : State) (fields : list (string * JsVal)) :
  assoc "current_app" fields = JStr "" →
  handleUpdate_current_app (JObj fields) st = (Normal tt, st).
Proof. intros H. unfold handleUpdate_current_app. js_run. by rewrite H. Qed.

(** C8 at the start of the Amazon probe of the search for milk, at a
    storefront that has no card, and at a storefront whose name is not
    ASCII. *)
Lemma C8_witness :
  let st1 := exec (handleUpdate_current_app (JObj [("current_app", JStr "amazon")]))
               searching in
  let st2 := exec (handleUpdate_current_app (JObj [("current_app", JStr "myntra")]))
               searching in
  let st3 := exec (handleUpdate_current_app (JObj [("current_app", JStr "straße")]))
               searching in
  textContent (element (document st1) statusTitle) = "Searching on Amazon..." ∧
  textContent (element (document st1) statusMessage)
    = "Your phone is searching AMAZON for " ++ quote ++ "milk" ++ quote ∧
  (∃ card', find_card "amazon" st1 = Some (0%nat, card') ∧
     textContent (part card' Badge) = "Searching") ∧
  priceCards (document st2) = priceCards (document searching) ∧
  textContent (element (document st3) statusTitle) = "Searching on Straße..." ∧
  textContent (element (document st3) statusMessage)
    = "Your phone is searching STRASSE for " ++ quote ++ "milk" ++ quote.
Proof.
  intros st1 st2 st3.
  destruct (C8_current_app_marks_card_searching searching
              [("current_app", JStr "amazon")] "amazon" eq_refl)
    as (_ & _ & Htitle & Hmessage & Hcard & _); [discriminate|reflexivity|].
  destruct (C8_current_app_marks_card_searching searching
              [("current_app", JStr "myntra")] "myntra" eq_refl)
    as (_ & _ & _ & _ & _ & Hnone); [discriminate|reflexivity|].
  destruct (C8_current_app_marks_card_searching searching
              [("current_app", JStr "straße")] "straße" eq_refl)
    as (_ & _ & Htitle3 & Hmessage3 & _); [discriminate|reflexivity|].
  destruct (Hcard 0%nat (resetCard (blank_card "amazon")))
    as (card' & Hfind & Hbadge & _); [vm_compute; reflexivity|].
  split_and!.
  - exact Htitle.
  - exact Hmessage.
  - exists card'. split; [exact Hfind|exact Hbadge].
  - apply Hnone. vm_compute. reflexivity.
  - etransitivity; [exact Htitle3|]. vm_compute. reflexivity.
  - etransitivity; [exact Hmessage3|]. vm_compute. reflexivity.
Defined.

(** C8 as stated fails on two updates that contain a [current_app]. An empty
    identifier is taken for an absent one by [if (data.current_app)]: the
    banner announces nothing and the state is as it was. An identifier with
    a double quote is announced, but the card selector built from it is no
    selector: [setCardSearching] throws, and the rest of the update, here
    the card of a settled probe, is not handled. *)
Lemma C8_counterexample :
  let empty := JObj [("current_app", JStr "")] in
  let quoted := JObj [("current_app", JStr ("a" ++ quote ++ "b"));
                      ("app_complete", JStr "amazon");
                      ("result", JObj [("found", JBool true); ("price", JNum 54)])] in
  exec (handleUpdate empty) searching = searching ∧
  textContent (element (document searching) statusTitle)
    = "Connecting to your phone..." ∧
  fst (handleUpdate quoted searching) = Throw SyntaxError ∧
  priceCards (document (exec (handleUpdate quoted) searching))
    = priceCards (document searching) ∧
  results (this (exec (handleUpdate quoted) searching)) !! "amazon" = None.
Proof. repeat split; vm_compute; reflexivity. Qed.

(** ** Price cards *)

(** C3, as the code has it: an update whose [app_complete] is a non-empty
    string naming a storefront with a price card that the card selector
    finds, the identifier staying inside its quotes, and whose [result] is
    an object, updates that card and then records the result in
    [this.results] under the storefront identifier. The loader is hidden and
    the content shown. When [result.found] and [result.price] are both truthy (found, with
    a price other than 0) the price is displayed, the product name is the
    current product, the badge reads ['Found'] and the buy button is revealed.
    Otherwise the price area shows ['--'], the product name shows
    [result.error], or ['Not found'] when that is absent or empty, the badge
    reads ['Error'] and the buy button is as it was. *)
Theorem C3_app_complete_updates_card
    (st : State) (fields r : list (string * JsVal)) (app : string)
    (i : nat) (card : Card) :
  assoc "app_complete" fields = JStr app →
  app ≠ "" →
  assoc "result" fields = JObj r →
  find_card app st = Some (i, card) →
  let data := JObj fields in
  let st' := exec (handleUpdate_app_complete data) st in
  handleUpdate_app_complete data st = updateCard (JStr app) (JObj r) st ∧
  returns (handleUpdate_app_complete data) st ∧
  results (this st') !! app = Some (JObj r) ∧
  ∃ card', find_card app st' = Some (i, card') ∧
    has_class "hidden" (part card' Loading) = true ∧
    has_class "hidden" (part card' Content) = false ∧
    if truthy (assoc "found" r) && truthy (assoc "price" r) then
      textContent (part card' PriceValue) = ToString (assoc "price" r) ∧
      textContent (part card' ProductName) = text_of (currentProduct (this st)) ∧
      textContent (part card' Badge) = "Found" ∧
      classList (part card' Badge) = ["status-badge"; "found"] ∧
      has_class "hidden" (part card' BuyBtn) = false
    else
      textContent (part card' PriceValue) = "--" ∧
      textContent (part card' ProductName)
        = text_of (js_or (assoc "error" r) (JStr "Not found")) ∧
      textContent (part card' Badge) = "Error" ∧
      classList (part card' Badge) = ["status-badge"; "error"] ∧
      part card' BuyBtn = part card BuyBtn.
Proof.
  intros Happ Hne Hres Hfind data st'. subst st' data.
  apply find_card_Some in Hfind as [Hsafe Hfind].
  rewrite (find_card_safe app) by done.
  assert (Ht : truthy (JStr app) = true) by by apply truthy_JStr.
  assert (Hcall : handleUpdate_app_complete (JObj fields) st
                  = updateCard (JStr app) (JObj r) st).
  { unfold handleUpdate_app_complete. js_run.
    by rewrite Happ, Hres, truthy_js_and, Ht. }
  split; [exact Hcall|]. unfold returns, exec. rewrite Hcall. clear Hcall.
  unfold updateCard. cbn [ToString]. rewrite (querySelector_card_safe app Hsafe).
  js_run. rewrite Hfind. js_run. rewrite truthy_js_and.
  destruct (truthy (assoc "found" r) && truthy (assoc "price" r)) eqn:Hguard; js_run.
  - apply andb_true_iff in Hguard as [_ Hprice].
    split; [by eexists|]. split; [by rewrite lookup_insert_eq|].
    eexists. split; [find_written_card Hfind|].
    split_and!; try by el_simpl. el_simpl. by apply text_of_truthy.
  - split; [by eexists|]. split; [by rewrite lookup_insert_eq|].
    eexists. split; [find_written_card Hfind|].
    split_and!; by el_simpl.
Qed.

(** The guard [if (data.app_complete && data.result)] takes an empty
    identifier for an absent one: nothing is written. *)
Lemma empty_app_complete_is_ignored (st : State) (fields : list (string * JsVal)) :
  assoc "app_complete" fields = JStr "" →
  handleUpdate_app_complete (JObj fields) st = (Normal tt, st).
Proof. intros H. unfold handleUpdate_app_complete. js_run. by rewrite H. Qed.

(** C3 at the Amazon probe of the search for milk, settled at 54.5. *)
Lemma C3_witness :
  let r := [("found", JBool true); ("price", JNum 54.5)] in
  let data := JObj [("app_complete", JStr "amazon"); ("result", JObj r)] in
  let st' := exec (handleUpdate_app_complete data) searching in
  results (this st') !! "amazon" = Some (JObj r) ∧
  ∃ card', find_card "amazon" st' = Some (0%nat, card') ∧
    textContent (part card' PriceValue) = "54.5" ∧
    textContent (part card' ProductName) = "milk" ∧
    textContent (part card' Badge) = "Found" ∧
    has_class "hidden" (part card' BuyBtn) = false.
Proof.
  intros r data st'.
  destruct (C3_app_complete_updates_card searching
              [("app_complete", JStr "amazon"); ("result", JObj r)] r "amazon"
              0%nat (resetCard (blank_card "amazon")) eq_refl)
    as (_ & _ & Hres & card' & Hfind & _ & _ & Hprice & Hname & Hbadge & _ & Hbuy).
  - discriminate.
  - reflexivity.
  - vm_compute. reflexivity.
  - split; [exact Hres|]. exists card'.
    split_and!; [exact Hfind|exact Hprice|exact Hname|exact Hbadge|exact Hbuy].
Defined.

(** C3 as stated fails on a found result whose price is 0: the price is
    present, yet the card shows ['--'] under an ['Error'] badge and the buy
    button stays hidden. *)
Lemma C3_counterexample :
  let r := [("found", JBool true); ("price", JNum 0)] in
  let data := JObj [("app_complete", JStr "amazon"); ("result", JObj r)] in
  let st' := dispatch (MessageArrives 0 (Some data)) searching in
  assoc "found" r = JBool true ∧
  assoc "price" r = JNum 0 ∧
  ∃ card', find_card "amazon" st' = Some (0%nat, card') ∧
    textContent (part card' PriceValue) = "--" ∧
    textContent (part card' Badge) = "Error" ∧
    has_class "hidden" (part card' BuyBtn) = true ∧
    ¬ (textContent (part card' PriceValue) = "0" ∧
       textContent (part card' Badge) = "Found" ∧
       has_class "hidden" (part card' BuyBtn) = false).
Proof.
  intros r data st'. split; [reflexivity|]. split; [reflexivity|].
  eexists. split; [vm_compute; reflexivity|].
  split_and!; [reflexivity..|]. intros (H & _). discriminate H.
Qed.

(** C9: when the storefront has a price card, a result with [found = true]
    whose price is absent, 0 or otherwise falsy takes the not-found branch of
    [updateCard]: the price area shows ['--'], the badge reads ['Error'] with
    classes [status-badge error], the product name is [result.error] or
    ['Not found'], and the buy button is not touched. The document is then
    the same as after a [found = false] result with the same error. *)
Theorem C9_found_without_price_is_not_found
    (st : State) (app : JsVal) (r : list (string * JsVal)) (i : nat) (card : Card) :
  find_card (ToString app) st = Some (i, card) →
  assoc "found" r = JBool true →
  truthy (assoc "price" r) = false →
  let st' := exec (updateCard app (JObj r)) st in
  (∃ card', find_card (ToString app) st' = Some (i, card') ∧
     has_class "hidden" (part card' Content) = false ∧
     textContent (part card' PriceValue) = "--" ∧
     textContent (part card' Badge) = "Error" ∧
     classList (part card' Badge) = ["status-badge"; "error"] ∧
     textContent (part card' ProductName)
       = text_of (js_or (assoc "error" r) (JStr "Not found")) ∧
     part card' BuyBtn = part card BuyBtn) ∧
  (∀ r', assoc "found" r' = JBool false →
         assoc "error" r' = assoc "error" r →
         document (exec (updateCard app (JObj r')) st) = document st').
Proof.
  intros Hfind Hfound Hprice st'. subst st'.
  apply find_card_Some in Hfind as [Hsafe Hfind].
  rewrite (find_card_safe (ToString app)) by done.
  unfold updateCard. rewrite (querySelector_card_safe _ Hsafe).
  js_run. rewrite Hfind. js_run.
  rewrite truthy_js_and, Hfound, Hprice. js_run.
  split.
  - eexists. split; [find_written_card Hfind|].
    split_and!; by el_simpl.
  - intros r' Hfound' Herr. rewrite truthy_js_and, Hfound'. js_run.
    by rewrite Herr.
Qed.

(** C9 at a found result with price 0 for Amazon. *)
Lemma C9_witness :
  let r := [("found", JBool true); ("price", JNum 0)] in
  let st' := exec (updateCard (JStr "amazon") (JObj r)) searching in
  (∃ card', find_card "amazon" st' = Some (0%nat, card') ∧
     textContent (part card' PriceValue) = "--" ∧
     textContent (part card' Badge) = "Error" ∧
     textContent (part card' ProductName) = "Not found") ∧
  document (exec (updateCard (JStr "amazon") (JObj [("found", JBool false)])) searching)
  = document st'.
Proof.
  intros r st'.
  destruct (C9_found_without_price_is_not_found searching (JStr "amazon") r
              0%nat (resetCard (blank_card "amazon")))
    as ((card' & Hfind & _ & Hprice & Hbadge & _ & Hname & _) & Hsame).
  - vm_compute. reflexivity.
  - reflexivity.
  - reflexivity.
  - split.
    + exists card'. split_and!; [exact Hfind|exact Hprice|exact Hbadge|exact Hname].
    + apply Hsame; reflexivity.
Defined.

(** C10, as the code has it: when the storefront identifier stays inside
    the quotes of the card selector and no price card has it as its
    [data-app], [updateCard] returns at once and the whole state, price cards
    and [this.results] included, is unchanged; so is it after the
    [app_complete] part of [handleUpdate] for an update naming that
    storefront. *)
Theorem C10_no_card_no_change
    (st : State) (app result : JsVal) :
  selector_safe (ToString app) = true →
  find_card (ToString app) st = None →
  updateCard app result st = (Normal tt, st) ∧
  ∀ fields, assoc "app_complete" fields = app →
    handleUpdate_app_complete (JObj fields) st = (Normal tt, st).
Proof.
  intros Hsafe H. rewrite find_card_safe in H by done. split.
  - unfold updateCard. rewrite (querySelector_card_safe _ Hsafe). js_run.
    by rewrite H.
  - intros fields <-. unfold handleUpdate_app_complete, updateCard. js_run.
    destruct (truthy _); [|done].
    rewrite (querySelector_card_safe _ Hsafe). js_run. by rewrite H.
Qed.

(** C10 at a result for a storefront that has no card. *)
Lemma C10_witness :
  let result := JObj [("found", JBool true); ("price", JNum 499)] in
  let data := [("app_complete", JStr "myntra"); ("result", result)] in
  exec (handleUpdate_app_complete (JObj data)) searching = searching ∧
  results (this (exec (updateCard (JStr "myntra") result) searching)) !! "myntra" = None.
Proof.
  intros result data.
  destruct (C10_no_card_no_change searching (JStr "myntra") result) as (Hcard & Hupdate).
  - reflexivity.
  - vm_compute. reflexivity.
  - split.
    + unfold exec. rewrite (Hupdate data eq_refl). reflexivity.
    + unfold exec. rewrite Hcard. vm_compute. reflexivity.
Defined.

(** C10 as stated fails on an identifier that breaks out of the quotes of
    the card selector. No price card has the identifier below as its
    [data-app], yet the selector built from it is a list whose second part
    selects the Amazon card: [updateCard] rewrites that card and records the
    result under the identifier. With a double quote followed by letters the
    text is no selector, and [updateCard] throws instead of returning. *)
Lemma C10_counterexample :
  let app := "zz" ++ quote ++ "],.price-card[data-app=" ++ quote ++ "amazon" in
  let result := JObj [("found", JBool true); ("price", JNum 1)] in
  let st' := exec (updateCard (JStr app) result) searching in
  data_app <$> priceCards (document searching)
    = [Some "amazon"; Some "flipkart"; Some "blinkit"; Some "zepto"] ∧
  st' ≠ searching ∧
  results (this searching) !! app = None ∧
  results (this st') !! app = Some result ∧
  (∃ card', priceCards (document st') !! 0%nat = Some card' ∧
     data_app card' = Some "amazon" ∧
     textContent (part card' PriceValue) = "1" ∧
     textContent (part card' Badge) = "Found" ∧
     has_class "hidden" (part card' BuyBtn) = false) ∧
  fst (updateCard (JStr ("a" ++ quote ++ "b")) result searching)
  = Throw SyntaxError.
Proof.
  intros app result st'. split_and!.
  - vm_compute. reflexivity.
  - intros H. apply (f_equal (λ st, results (this st) !! app)) in H.
    vm_compute in H. discriminate H.
  - vm_compute. reflexivity.
  - vm_compute. reflexivity.
  - eexists. split; [vm_compute; reflexivity|]. split_and!; reflexivity.
  - vm_compute. reflexivity.
Qed.

(** ** Requests and channels *)

(** C5, as the code has it: when the trimmed input is not empty,
    [startSearch] sends one request, [POST /search] with content type JSON
    and body [{product}], the product being the input value without the
    white space around it. When the response [{task_id}] arrives, the task
    identifier is kept. When it holds no [#], a socket is opened at
    [ws://<host>/ws/<task_id>], and every JSON frame received on it, then or
    after any further events, is handed to [handleUpdate]. When it holds a
    [#], the URL has a fragment and the [WebSocket] constructor throws: no
    socket is opened, and the [catch] branch shows ['Connection failed'] and
    enables the search button. *)
Theorem C5_startSearch_posts_then_subscribes
    (st : State) (response : list (string * JsVal)) :
  let product := trim (productInput_value (document st)) in
  product ≠ "" →
  let request := length (fetches (window st)) in
  let socket := length (sockets (window st)) in
  let task_id := assoc "task_id" response in
  let st1 := exec startSearch st in
  let st2 := dispatch (FetchSettles request (Resolved (Some (JObj response)))) st1 in
  fetches (window st1)
    = (fetches (window st)
       ++ [mkFetch "/search" "POST" [("Content-Type", "application/json")]
             (stringify (JObj [("product", JStr product)])) InStartSearch false])%list ∧
  sockets (window st1) = sockets (window st) ∧
  currentTaskId (this st2) = task_id ∧
  (has_hash (ToString task_id) = false →
     ws (this st2) = Some socket ∧
     sockets (window st2)
       = (sockets (window st)
          ++ [mkSocket
                ("ws://" ++ location_host (window st) ++ "/ws/" ++ ToString task_id)
                (Some SearchListener) false])%list ∧
     ∀ events data,
       let st3 := run events st2 in
       dispatch (MessageArrives socket (Some data)) st3
       = exec (handleUpdate data) st3) ∧
  (has_hash (ToString task_id) = true →
     ws (this st2) = ws (this st) ∧
     sockets (window st2) = sockets (window st) ∧
     textContent (element (document st2) statusTitle) = "Connection failed" ∧
     disabled (element (document st2) searchBtn) = false).
Proof.
  intros product Hne request socket task_id st1 st2.
  assert (Ht : truthy (JStr product) = true) by by apply truthy_JStr.
  assert (Hst1 : fetches (window st1)
    = (fetches (window st)
       ++ [mkFetch "/search" "POST" [("Content-Type", "application/json")]
             (stringify (JObj [("product", JStr product)])) InStartSearch false])%list ∧
    sockets (window st1) = sockets (window st) ∧
    location_host (window st1) = location_host (window st) ∧
    ws (this st1) = ws (this st)).
  { subst st1. unfold startSearch, setSearchLoading, showStatus, resetCards.
    js_run. fold product. rewrite Ht. cbn [negb]. by js_run. }
  destruct Hst1 as (Hf & Hs & Hh & Hw).
  assert (Hst2 : currentTaskId (this st2) = task_id ∧
    (has_hash (ToString task_id) = false →
     ws (this st2) = Some socket ∧
     sockets (window st2)
     = (sockets (window st)
        ++ [mkSocket
              ("ws://" ++ location_host (window st) ++ "/ws/" ++ ToString task_id)
              (Some SearchListener) false])%list) ∧
    (has_hash (ToString task_id) = true →
     ws (this st2) = ws (this st) ∧
     sockets (window st2) = sockets (window st) ∧
     textContent (element (document st2) statusTitle) = "Connection failed" ∧
     disabled (element (document st2) searchBtn) = false)).
  { subst st2. unfold dispatch. rewrite Hf. subst request.
    rewrite lookup_app_r by done. rewrite Nat.sub_diag.
    cbn [lookup list_lookup fetch_settled fetch_resumes].
    unfold resume, startSearch_resume, connectWebSocket, settle_fetch,
      showStatus, setSearchLoading.
    js_run. fold task_id. destruct (has_hash (ToString task_id)); js_run.
    - split_and!; [done|done|]. intros _. rewrite Hs, Hw.
      split_and!; [done|done|by el_simpl..].
    - split_and!; [done| |done]. intros _. rewrite Hs, Hh. subst socket.
      split; [done|]. by rewrite list_alter_snoc. }
  destruct Hst2 as (Hid & Hopen & Hfails).
  split_and!; [done..| |done].
  intros Hurl. destruct (Hopen Hurl) as (Hws & Hsock).
  split_and!; [done..|].
  intros events data st3.
  apply (search_socket_routes_to_handleUpdate st3 socket
           (mkSocket
              ("ws://" ++ location_host (window st) ++ "/ws/" ++ ToString task_id)
              (Some SearchListener) false)); [|done..].
  apply search_socket_open_after_run; [done|].
  unfold has_socket. rewrite Hsock. subst socket.
  by rewrite lookup_app_r, Nat.sub_diag by done.
Qed.

(** C5 at a search for milk typed with a space before it and a no-break
    space after it. *)
Lemma C5_witness :
  let st := dispatch (TypeProduct (" milk" ++ encode 160)) fresh in
  let st1 := exec startSearch st in
  let st2 := dispatch (FetchSettles 0 (Resolved (Some (JObj [("task_id", JStr "t1")])))) st1 in
  fetch_body <$> fetches (window st1)
    = ["{" ++ quote ++ "product" ++ quote ++ ":" ++ quote ++ "milk" ++ quote ++ "}"] ∧
  ws_url <$> sockets (window st2) = ["ws://localhost:8000/ws/t1"] ∧
  ∀ events data,
    dispatch (MessageArrives 0 (Some data)) (run events st2)
    = exec (handleUpdate data) (run events st2).
Proof.
  intros st st1 st2.
  destruct (C5_startSearch_posts_then_subscribes st [("task_id", JStr "t1")])
    as (Hfetch & _ & _ & Hopen & _).
  - vm_compute. discriminate.
  - destruct (Hopen eq_refl) as (_ & Hsock & Hroute).
    split_and!.
    + etransitivity; [exact (f_equal (fmap fetch_body) Hfetch)|].
      vm_compute. reflexivity.
    + etransitivity; [exact (f_equal (fmap ws_url) Hsock)|reflexivity].
    + exact Hroute.
Defined.

(** C5 as stated fails on a response whose task identifier holds a [#]: the
    URL of the push channel has a fragment, [new WebSocket] throws inside the
    [try] block, and the search ends with ['Connection failed'], no socket
    and no channel to receive its updates on. *)
Lemma C5_counterexample :
  let st1 := exec startSearch (dispatch (TypeProduct "milk") fresh) in
  let response := JObj [("task_id", JStr "a#b")] in
  let st2 := dispatch (FetchSettles 0 (Resolved (Some response))) st1 in
  currentTaskId (this st2) = JStr "a#b" ∧
  sockets (window st2) = [] ∧
  ws (this st2) = None ∧
  textContent (element (document st2) statusTitle) = "Connection failed" ∧
  disabled (element (document st2) searchBtn) = false ∧
  ∀ socket data, dispatch (MessageArrives socket data) st2 = st2.
Proof.
  intros st1 response st2. split_and!; vm_compute; reflexivity.
Qed.

(** C6, as the code has it: with a storefront selected, [placeOrder] sends
    one request, [POST /order] with content type JSON and body
    [{product, app}], the current product and the selected storefront. When
    the response [{task_id}] arrives and the task identifier holds no [#], a
    socket is opened at [ws://<host>/ws/<task_id>] and every frame received
    on it goes to the order listener, which waits for the terminal order
    event. When the task identifier holds a [#], the URL has a fragment and
    the [WebSocket] constructor throws: no socket is opened, and the [catch]
    branch shows ['Failed to communicate with server'] and sets the timer
    that dismisses the dialog. *)
Theorem C6_placeOrder_posts_then_subscribes
    (st : State) (app : string) (response : list (string * JsVal)) :
  selectedOrderApp (this st) = JStr app →
  let request := length (fetches (window st)) in
  let socket := length (sockets (window st)) in
  let task_id := assoc "task_id" response in
  let st1 := exec placeOrder st in
  let st2 := dispatch (FetchSettles request (Resolved (Some (JObj response)))) st1 in
  fetches (window st1)
    = (fetches (window st)
       ++ [mkFetch "/order" "POST" [("Content-Type", "application/json")]
             (stringify
                (JObj [("product", currentProduct (this st)); ("app", JStr app)]))
             InPlaceOrder false])%list ∧
  (has_hash (ToString task_id) = false →
     sockets (window st2)
       = (sockets (window st)
          ++ [mkSocket
                ("ws://" ++ location_host (window st) ++ "/ws/" ++ ToString task_id)
                (Some OrderListener) false])%list ∧
     ∀ event_data,
       dispatch (MessageArrives socket event_data) st2
       = exec (onmessage_order socket event_data) st2) ∧
  (has_hash (ToString task_id) = true →
     sockets (window st2) = sockets (window st) ∧
     textContent (element (document st2) orderStatusMsg)
       = "Failed to communicate with server" ∧
     timers (window st2)
       = (timers (window st) ++ [mkTimer 3000 HideOrderStatusModal false])%list).
Proof.
  intros Happ request socket task_id st1 st2.
  assert (Hst1 : fetches (window st1)
    = (fetches (window st)
       ++ [mkFetch "/order" "POST" [("Content-Type", "application/json")]
             (stringify
                (JObj [("product", currentProduct (this st)); ("app", JStr app)]))
             InPlaceOrder false])%list ∧
    sockets (window st1) = sockets (window st) ∧
    location_host (window st1) = location_host (window st) ∧
    timers (window st1) = timers (window st)).
  { subst st1. unfold placeOrder, hideOrderModal. js_run. rewrite Happ. by js_run. }
  destruct Hst1 as (Hf & Hs & Hh & Ht).
  assert (Hst2 :
    (has_hash (ToString task_id) = false →
     sockets (window st2)
     = (sockets (window st)
        ++ [mkSocket
              ("ws://" ++ location_host (window st) ++ "/ws/" ++ ToString task_id)
              (Some OrderListener) false])%list) ∧
    (has_hash (ToString task_id) = true →
     sockets (window st2) = sockets (window st) ∧
     textContent (element (document st2) orderStatusMsg)
       = "Failed to communicate with server" ∧
     timers (window st2)
       = (timers (window st) ++ [mkTimer 3000 HideOrderStatusModal false])%list)).
  { subst st2. unfold dispatch. rewrite Hf. subst request.
    rewrite lookup_app_r by done. rewrite Nat.sub_diag.
    cbn [lookup list_lookup fetch_settled fetch_resumes].
    unfold resume, placeOrder_resume, settle_fetch. js_run.
    fold task_id. destruct (has_hash (ToString task_id)); js_run.
    - split; [done|]. intros _. rewrite Hs, Ht. split_and!; [done|by el_simpl|done].
    - split; [|done]. intros _. rewrite Hs, Hh. subst socket.
      by rewrite list_alter_snoc. }
  destruct Hst2 as (Hopen & Hfails).
  split_and!; [done| |done].
  intros Hurl. specialize (Hopen Hurl). split; [done|].
  intros event_data. eapply order_socket_routes_to_listener.
  - rewrite Hopen. subst socket. by rewrite lookup_app_r, Nat.sub_diag by done.
  - done.
  - done.
Qed.

(** C6 at the order of milk from Flipkart, the best offer of the search. *)
Lemma C6_witness :
  let st1 := exec placeOrder ordering in
  let st2 := dispatch (FetchSettles 1 (Resolved (Some (JObj [("task_id", JStr "t2")])))) st1 in
  fetch_body <$> fetches (window st1) !! 1%nat
    = Some ("{" ++ quote ++ "product" ++ quote ++ ":" ++ quote ++ "milk" ++ quote
            ++ "," ++ quote ++ "app" ++ quote ++ ":" ++ quote ++ "flipkart" ++ quote
            ++ "}") ∧
  sockets (window st2) !! 1%nat
    = Some (mkSocket "ws://localhost:8000/ws/t2" (Some OrderListener) false) ∧
  ∀ event_data,
    dispatch (MessageArrives 1 event_data) st2
    = exec (onmessage_order 1 event_data) st2.
Proof.
  intros st1 st2.
  destruct (C6_placeOrder_posts_then_subscribes ordering "flipkart"
              [("task_id", JStr "t2")])
    as (Hfetch & Hopen & _).
  - vm_compute. reflexivity.
  - destruct (Hopen eq_refl) as (Hsock & Hroute).
    split_and!.
    + etransitivity;
        [exact (f_equal (λ l, fetch_body <$> l !! 1%nat) Hfetch)|].
      vm_compute. reflexivity.
    + etransitivity; [exact (f_equal (λ l, l !! 1%nat) Hsock)|].
      vm_compute. reflexivity.
    + exact Hroute.
Defined.

(** C6 as stated fails on a response whose task identifier holds a [#]:
    [new WebSocket] throws inside the [try] block, the order is reported as
    ['Failed to communicate with server'] although the request was accepted,
    and no socket is there to observe the terminal order event. *)
Lemma C6_counterexample :
  let st1 := exec placeOrder ordering in
  let response := JObj [("task_id", JStr "a#b")] in
  let st2 := dispatch (FetchSettles 1 (Resolved (Some response))) st1 in
  sockets (window st2) = sockets (window ordering) ∧
  length (sockets (window st2)) = 1%nat ∧
  textContent (element (document st2) orderStatusMsg)
    = "Failed to communicate with server" ∧
  ∀ event_data, dispatch (MessageArrives 1 event_data) st2 = st2.
Proof.
  intros st1 response st2. split_and!; vm_compute; reflexivity.
Qed.

(** C4: an update with status ['error'] on the order socket is reported. The
    listener returns; the order status message is [update.error] when that is
    a non-empty string and ['Failed to place order'] when it is absent, and in
    both cases, as for an empty error string, the message is not empty. A
    timer of 3000 ms is set whose firing hides the order status dialog, and
    the order socket is closed, after which it delivers nothing more. *)
Theorem C4_order_error_is_reported
    (st : State) (orderWs : nat) (update : list (string * JsVal)) :
  assoc "status" update = JStr "error" →
  let error := assoc "error" update in
  let event_data := Some (JObj update) in
  let st' := exec (onmessage_order orderWs event_data) st in
  let message := textContent (element (document st') orderStatusMsg) in
  returns (onmessage_order orderWs event_data) st ∧
  message = text_of (js_or error (JStr "Failed to place order")) ∧
  (∀ reason, error = JStr reason → reason ≠ "" → message = reason) ∧
  (error = JUndefined → message = "Failed to place order") ∧
  (error = JUndefined ∨ (∃ reason, error = JStr reason) → message ≠ "") ∧
  timers (window st')
    = (timers (window st) ++ [mkTimer 3000 HideOrderStatusModal false])%list ∧
  has_class "hidden"
    (element (document (dispatch (TimerFires (length (timers (window st)))) st'))
       orderStatusModal) = true ∧
  (∀ s, sockets (window st) !! orderWs = Some s →
     sockets (window st') !! orderWs
       = Some (mkSocket (ws_url s) (ws_onmessage s) true) ∧
     ∀ later, dispatch (MessageArrives orderWs later) st' = st').
Proof.
  intros Hstatus error event_data st' message.
  subst message st' event_data.
  unfold onmessage_order. js_run. rewrite Hstatus.
  cbn [strict_eq_str String.eqb Ascii.eqb Bool.eqb]. js_run.
  fold error.
  assert (Hmsg : ∀ els,
    textContent
      (alter (set_textContent (js_or error (JStr "Failed to place order")))
         orderStatusMsg els orderStatusMsg)
    = text_of (js_or error (JStr "Failed to place order"))).
  { intros. by el_simpl. }
  rewrite Hmsg.
  split_and!.
  - by eexists.
  - done.
  - intros reason -> Hne. unfold js_or.
    by rewrite (proj2 (truthy_JStr reason) Hne).
  - by intros ->.
  - intros [->|[reason ->]]; [done|].
    unfold js_or. destruct (truthy (JStr reason)) eqn:E; [|done].
    by apply truthy_JStr in E.
  - done.
  - unfold dispatch. js_run. rewrite lookup_app_r by done.
    rewrite Nat.sub_diag. cbn. by el_simpl.
  - intros s Hs. split.
    + by rewrite list_lookup_alter_eq, Hs.
    + intros later. unfold dispatch. js_run.
      by rewrite list_lookup_alter_eq, Hs.
Qed.

(** C4 at a failed order of milk, with and without a reason. *)
Lemma C4_witness :
  let failed := exec (onmessage_order 1 (Some (JObj [("status", JStr "error")]))) ordered in
  let refused :=
    exec (onmessage_order 1
            (Some (JObj [("status", JStr "error"); ("error", JStr "Out of stock")])))
      ordered in
  textContent (element (document failed) orderStatusMsg) = "Failed to place order" ∧
  textContent (element (document refused) orderStatusMsg) = "Out of stock" ∧
  timer_delay <$> timers (window failed) = [3000] ∧
  ws_closed <$> sockets (window failed) !! 1%nat = Some true.
Proof.
  intros failed refused.
  destruct (C4_order_error_is_reported ordered 1 [("status", JStr "error")] eq_refl)
    as (_ & _ & _ & Habsent & _ & Htimer & _ & Hclose).
  destruct (C4_order_error_is_reported ordered 1
              [("status", JStr "error"); ("error", JStr "Out of stock")] eq_refl)
    as (_ & _ & Hreason & _).
  split_and!.
  - exact (Habsent eq_refl).
  - apply Hreason; [reflexivity|discriminate].
  - fold failed in Htimer. rewrite Htimer. reflexivity.
  - destruct (Hclose (mkSocket "ws://localhost:8000/ws/t2" (Some OrderListener) false))
      as (Hsock & _).
    + vm_compute. reflexivity.
    + fold failed in Hsock. rewrite Hsock. reflexivity.
Defined.

(** ** One search at a time *)

Lemma locked_on_element id f :
  id ≠ searchBtn → preserves search_locked (on_element id f).
Proof.
  intros Hid st H. unfold search_locked in *. js_run.
  by rewrite fn_lookup_alter_ne.
Qed.

Lemma locked_set_disabled :
  preserves search_locked (on_element searchBtn (set_disabled true)).
Proof. intros st H. unfold search_locked in *. js_run. by el_simpl. Qed.

Lemma locked_on_card i p f : preserves search_locked (on_card i p f).
Proof. by intros st H. Qed.

Lemma locked_on_this f : preserves search_locked (modify (on_this f)).
Proof. by intros st H. Qed.

Lemma locked_on_window f : preserves search_locked (modify (on_window f)).
Proof. by intros st H. Qed.

Lemma locked_resetCards : preserves search_locked resetCards.
Proof. by intros st H. Qed.

Lemma locked_focus b : preserves search_locked (modify (on_document (with_focused b))).
Proof. by intros st H. Qed.

Lemma locked_new_WebSocket {B} host taskId (k : nat → Js B) :
  (∀ a, preserves search_locked (k a)) →
  preserves search_locked (bind (new_WebSocket host taskId) k).
Proof.
  intros Hk st H. unfold exec, bind, new_WebSocket.
  destruct (has_hash taskId); [done|].
  apply (Hk (length (sockets (window st)))). exact H.
Qed.

Ltac locked_step :=
  first
    [ apply preserves_ret | apply preserves_throw | apply preserves_gets
    | apply preserves_unmodelled | apply preserves_querySelector_card
    | apply locked_on_element; discriminate
    | apply locked_set_disabled
    | apply locked_on_card | apply locked_on_this | apply locked_on_window
    | apply locked_resetCards | apply locked_focus
    | apply locked_new_WebSocket; intros ?
    | apply preserves_try_catch; [|intros ?]
    | apply preserves_bind; [|intros ?]
    | match goal with
      | |- preserves _ (match ?x with _ => _ end) => destruct x
      end ].

Lemma locked_get_prop v k : preserves search_locked (get_prop v k).
Proof. unfold get_prop. repeat locked_step. Qed.

Lemma locked_capitalize v : preserves search_locked (capitalize v).
Proof. unfold capitalize. repeat locked_step. Qed.

Lemma locked_call_toUpperCase v : preserves search_locked (call_toUpperCase v).
Proof. unfold call_toUpperCase. repeat locked_step. Qed.

Ltac locked :=
  repeat first
    [ apply locked_get_prop | apply locked_capitalize
    | apply locked_call_toUpperCase | locked_step ].

Lemma locked_showStatus t m : preserves search_locked (showStatus t m).
Proof. unfold showStatus. locked. Qed.

Lemma locked_setCardSearching app : preserves search_locked (setCardSearching app).
Proof. unfold setCardSearching. locked. Qed.

Lemma locked_updateCard app result : preserves search_locked (updateCard app result).
Proof.
  unfold updateCard. locked.
Qed.

Lemma locked_handleUpdate_current_app data :
  preserves search_locked (handleUpdate_current_app data).
Proof.
  unfold handleUpdate_current_app. locked.
Qed.

Lemma locked_handleUpdate_app_complete data :
  preserves search_locked (handleUpdate_app_complete data).
Proof.
  unfold handleUpdate_app_complete. locked.
Qed.

Lemma strict_eq_str_true v lit : strict_eq_str v lit = true → v = JStr lit.
Proof.
  destruct v; simpl; try done. by intros ->%String.eqb_eq.
Qed.

(** [handleUpdate] keeps the search button disabled unless the update has
    status ['completed']. *)
Lemma locked_handleUpdate data :
  (∀ fields, data = JObj fields → assoc "status" fields ≠ JStr "completed") →
  preserves search_locked (handleUpdate data).
Proof.
  intros Hstatus. unfold handleUpdate.
  apply preserves_bind; [apply locked_handleUpdate_current_app|intros _].
  apply preserves_bind; [apply locked_handleUpdate_app_complete|intros _].
  unfold handleUpdate_status.
  destruct data as [| | | | | |fields]; cbn [get_prop]; [locked..|].
  apply preserves_bind_ret.
  destruct (strict_eq_str (assoc "status" fields) "completed") eqn:E;
    [|apply preserves_ret].
  apply strict_eq_str_true in E. by destruct (Hstatus fields eq_refl).
Qed.

Lemma locked_showOrderModal app : preserves search_locked (showOrderModal app).
Proof. unfold showOrderModal. locked. Qed.

Lemma locked_placeOrder : preserves search_locked placeOrder.
Proof. unfold placeOrder, hideOrderModal, fetch. locked. Qed.

Lemma locked_placeOrder_resume o : preserves search_locked (placeOrder_resume o).
Proof.
  unfold placeOrder_resume, response_json, set_onmessage, setTimeout. locked.
Qed.

Lemma locked_onmessage_order orderWs event_data :
  preserves search_locked (onmessage_order orderWs event_data).
Proof.
  unfold onmessage_order, JSON_parse, setTimeout, ws_close. locked.
Qed.

Lemma locked_startSearch : preserves search_locked startSearch.
Proof.
  unfold startSearch, setSearchLoading, fetch. locked.
Qed.

Lemma locked_startSearch_resume fields :
  has_hash (ToString (assoc "task_id" fields)) = false →
  preserves search_locked (startSearch_resume (Resolved (Some (JObj fields)))).
Proof.
  intros Hurl st H. unfold startSearch_resume, connectWebSocket. js_run.
  rewrite Hurl. by js_run.
Qed.

(** Once disabled, the search button is enabled again only by
    [handleSearchComplete], on an update with status ['completed'] received on
    a search socket, or by the [catch] branch of [startSearch], on a
    [/search] request that fails, or whose response is not a JSON object, or
    is one with a task identifier that no socket can be opened for. *)
Lemma searchBtn_enabled_only_by_complete_or_catch (e : Event) (st : State) :
  search_locked st →
  ¬ search_locked (dispatch e st) →
  (∃ socket s fields,
      e = MessageArrives socket (Some (JObj fields)) ∧
      sockets (window st) !! socket = Some s ∧
      ws_onmessage s = Some SearchListener ∧
      assoc "status" fields = JStr "completed") ∨
  (∃ request f o,
      e = FetchSettles request o ∧
      fetches (window st) !! request = Some f ∧
      fetch_resumes f = InStartSearch ∧
      ∀ fields, o = Resolved (Some (JObj fields)) →
        has_hash (ToString (assoc "task_id" fields)) = true).
Proof.
  intros Hlocked Hopen.
  destruct e as [text| | |card| | | |request o|socket event_data|timer];
    cbn [dispatch] in Hopen.
  - done.
  - unfold search_locked in Hlocked. rewrite Hlocked in Hopen. done.
  - destruct Hopen. by apply locked_startSearch.
  - destruct (priceCards (document st) !! card); [|done].
    destruct Hopen. by apply locked_showOrderModal.
  - destruct Hopen. revert Hlocked. generalize st.
    change (preserves search_locked onclick_buyBest).
    unfold onclick_buyBest. locked.
  - destruct Hopen. revert Hlocked. generalize st.
    change (preserves search_locked hideOrderModal).
    unfold hideOrderModal. locked.
  - destruct Hopen. by apply locked_placeOrder.
  - destruct (fetches (window st) !! request) as [f|] eqn:Hf; [|done].
    destruct (fetch_settled f); [done|].
    destruct (fetch_resumes f) eqn:Hk; cbn [resume] in Hopen.
    + right. exists request, f, o. split_and!; [done..|].
      intros fields ->.
      destruct (has_hash (ToString (assoc "task_id" fields))) eqn:Hurl; [done|].
      destruct Hopen. by apply locked_startSearch_resume.
    + destruct Hopen. by apply locked_placeOrder_resume.
  - destruct (sockets (window st) !! socket) as [s|] eqn:Hs; [|done].
    destruct (ws_closed s); [done|].
    destruct (ws_onmessage s) as [[]|] eqn:Hl; [| |done].
    + destruct event_data as [data|]; [|done].
      unfold onmessage_order, onmessage_search, JSON_parse in Hopen.
      destruct data as [| | | | | |fields];
        try (destruct Hopen; apply locked_handleUpdate; [by intros ?|done]).
      destruct (strict_eq_str (assoc "status" fields) "completed") eqn:E.
      * left. exists socket, s, fields. split_and!; try done.
        by apply strict_eq_str_true.
      * destruct Hopen. apply locked_handleUpdate; [|done].
        intros ? [= <-] Heq. by rewrite Heq in E.
    + destruct Hopen. by apply locked_onmessage_order.
  - destruct (timers (window st) !! timer) as [t|]; [|done].
    destruct (timer_fired t); [done|].
    destruct Hopen. destruct (timer_callback t). cbn [run_callback].
    by apply locked_on_element.
Qed.


(** C7, on the code: the search button is disabled while a search is in
    flight and a click on it does nothing, but the Enter key in the product
    input calls [startSearch] all the same, and a second [/search] request is
    in flight with the first. *)
Theorem C7_enter_starts_a_second_search :
  let st := run [TypeProduct "milk"; ClickSearch; KeypressEnter] fresh in
  disabled (element (document st) searchBtn) = true ∧
  dispatch ClickSearch st = st ∧
  length (searches_in_flight st) = 2%nat.
Proof. vm_compute. done. Qed.

(** ** Winner selection *)

Import Orchestrator.

Lemma settle_all_snoc (completions : list (string * ProbeResult)) sf r :
  settle_all (completions ++ [(sf, r)]) = <[sf := r]> (settle_all completions).
Proof. unfold settle_all. by rewrite foldl_snoc. Qed.

(** With one probe per storefront, the task holds exactly the results that
    settled. *)
Lemma settle_all_lookup (completions : list (string * ProbeResult)) sf r :
  NoDup (completions.*1) →
  settle_all completions !! sf = Some r ↔ (sf, r) ∈ completions.
Proof.
  induction completions as [|[sf' r'] completions IH] using rev_ind; intros Hnd.
  - unfold settle_all. simpl. rewrite lookup_empty, elem_of_nil.
    split; [done|tauto].
  - rewrite fmap_app in Hnd. apply NoDup_app in Hnd as (Hnd & Hnot & _).
    rewrite settle_all_snoc, elem_of_app, list_elem_of_singleton.
    destruct (decide (sf' = sf)) as [->|Hne].
    + rewrite lookup_insert_eq. split.
      * intros [= ->]. by right.
      * intros [Hin|[= ->]]; [|done].
        exfalso. apply (Hnot sf); [|apply list_elem_of_here].
        apply list_elem_of_fmap. by exists (sf, r).
    + rewrite lookup_insert_ne by done. rewrite IH by done.
      split; [by left|]. intros [?|[= ? ?]]; [done|congruence].
Qed.

(** The order in which the probes settle does not show in the task. *)
Lemma settle_all_Permutation (l1 l2 : list (string * ProbeResult)) :
  NoDup (l1.*1) → l1 ≡ₚ l2 → settle_all l1 = settle_all l2.
Proof.
  intros Hnd Hp. assert (Hnd2 : NoDup (l2.*1)) by by rewrite <- Hp.
  apply map_eq. intros sf. apply option_eq. intros r.
  rewrite !settle_all_lookup by done. by rewrite Hp.
Qed.

Lemma select_offer_selected task config :
  selected task config (select_offer config task).
Proof.
  unfold select_offer.
  induction config as [|sf config IH] using rev_ind; [by intros ????|].
  rewrite foldl_snoc. unfold consider at 1.
  destruct (task !! sf) as [[p l|e]|] eqn:Hsf.
  - destruct (foldl _ _ _) as [b|] eqn:Hbest.
    + destruct IH as (i & lb & Hi & Hb & Hmin).
      destruct (Z.ltb_spec p (offer_price b)) as [Hlt|Hge].
      * exists (length config), l. cbn [offer_app offer_price].
        split_and!; [by rewrite lookup_app_r, Nat.sub_diag|done|].
        intros j sf' p' l' Hj Hf.
        apply lookup_app_Some in Hj as [Hj|[Hlen Hj]].
        -- left. destruct (Hmin _ _ _ _ Hj Hf); lia.
        -- apply list_lookup_singleton_Some in Hj as [Hj ->].
           rewrite Hsf in Hf. injection Hf as <- <-. right. split; [done|lia].
      * exists i, lb. split_and!; [by apply lookup_app_l_Some|done|].
        intros j sf' p' l' Hj Hf.
        apply lookup_app_Some in Hj as [Hj|[Hlen Hj]]; [by eapply Hmin|].
        apply list_lookup_singleton_Some in Hj as [Hj ->].
        rewrite Hsf in Hf. injection Hf as <- <-.
        apply lookup_lt_Some in Hi.
        destruct (decide (offer_price b = p)); [right|left]; lia.
    + exists (length config), l. cbn [offer_app offer_price].
      split_and!; [by rewrite lookup_app_r, Nat.sub_diag|done|].
      intros j sf' p' l' Hj Hf.
      apply lookup_app_Some in Hj as [Hj|[Hlen Hj]];
        [by destruct (IH _ _ _ _ Hj Hf)|].
      apply list_lookup_singleton_Some in Hj as [Hj ->].
      rewrite Hsf in Hf. injection Hf as <- <-. right. split; [done|lia].
  - destruct (foldl _ _ _) as [b|] eqn:Hbest.
    + destruct IH as (i & lb & Hi & Hb & Hmin).
      exists i, lb. split_and!; [by apply lookup_app_l_Some|done|].
      intros j sf' p' l' Hj Hf.
      apply lookup_app_Some in Hj as [Hj|[Hlen Hj]]; [by eapply Hmin|].
      apply list_lookup_singleton_Some in Hj as [Hj ->]. congruence.
    + intros j sf' p' l' Hj Hf.
      apply lookup_app_Some in Hj as [Hj|[Hlen Hj]]; [by eapply IH|].
      apply list_lookup_singleton_Some in Hj as [Hj ->]. congruence.
  - destruct (foldl _ _ _) as [b|] eqn:Hbest.
    + destruct IH as (i & lb & Hi & Hb & Hmin).
      exists i, lb. split_and!; [by apply lookup_app_l_Some|done|].
      intros j sf' p' l' Hj Hf.
      apply lookup_app_Some in Hj as [Hj|[Hlen Hj]]; [by eapply Hmin|].
      apply list_lookup_singleton_Some in Hj as [Hj ->]. congruence.
    + intros j sf' p' l' Hj Hf.
      apply lookup_app_Some in Hj as [Hj|[Hlen Hj]]; [by eapply IH|].
      apply list_lookup_singleton_Some in Hj as [Hj ->]. congruence.
Qed.

Lemma precedence_Some config sf i :
  precedence config sf = Some i ↔
  config !! i = Some sf ∧ ∀ j, (j < i)%nat → config !! j ≠ Some sf.
Proof.
  unfold precedence. split.
  - intros H. destruct (list_find _ _) as [[i' x]|] eqn:Hf; [|done].
    injection H as ->. rewrite list_find_Some in Hf.
    destruct Hf as (Hi & -> & Hleast). split; [done|].
    intros j Hj Hjs. by eapply Hleast.
  - intros [Hi Hleast].
    assert (Hf : list_find (λ s, s = sf) config = Some (i, sf)).
    { rewrite list_find_Some. split_and!; [done..|].
      intros j y Hj Hlt ->. by eapply Hleast. }
    by rewrite Hf.
Qed.

(** C2: in a search where each storefront settles once, every storefront
    that settles is configured, and at least one result is found, the
    terminal event carries an offer. The offer is one of the found results,
    its price is at most every found price, and every storefront that found
    the same price stands no earlier in the precedence order than the
    storefront of the offer. The same offer comes out whatever the order in
    which the probes settle. *)
Theorem C2_offer_is_minimum_by_precedence
    (config : list string) (completions : list (string * ProbeResult)) :
  NoDup (completions.*1) →
  (∀ sf, sf ∈ completions.*1 → sf ∈ config) →
  (∃ sf p label, (sf, Found p label) ∈ completions) →
  ∃ offer,
    terminal_offer config completions = Some offer ∧
    (∃ label, (offer_app offer, Found (offer_price offer) label) ∈ completions) ∧
    (∀ sf p label, (sf, Found p label) ∈ completions → offer_price offer ≤ p) ∧
    (∀ sf label i j,
       (sf, Found (offer_price offer) label) ∈ completions →
       precedence config (offer_app offer) = Some i →
       precedence config sf = Some j →
       (i ≤ j)%nat) ∧
    (∀ shuffled, completions ≡ₚ shuffled →
       terminal_offer config shuffled = Some offer).
Proof.
  intros Hnd Hconf (sf0 & p0 & l0 & Hfound).
  pose proof (select_offer_selected (settle_all completions) config) as Hsel.
  unfold terminal_offer.
  destruct (select_offer config (settle_all completions)) as [offer|] eqn:Hoffer.
  - destruct Hsel as (i & l & Hi & Hbest & Hmin).
    exists offer. split_and!.
    + done.
    + exists l. by apply settle_all_lookup.
    + intros sf p label Hin.
      assert (Hsf : sf ∈ config).
      { apply Hconf, list_elem_of_fmap. by exists (sf, Found p label). }
      apply list_elem_of_lookup in Hsf as [j Hj].
      apply settle_all_lookup in Hin; [|done].
      destruct (Hmin _ _ _ _ Hj Hin); lia.
    + intros sf label i' j Hin Hprec Hprecj.
      apply precedence_Some in Hprec as [_ Hfirst].
      apply precedence_Some in Hprecj as [Hj _].
      apply settle_all_lookup in Hin; [|done].
      destruct (Hmin _ _ _ _ Hj Hin) as [?|[_ ?]]; [lia|].
      destruct (decide (i' ≤ i)%nat); [lia|].
      exfalso. apply (Hfirst i); [lia|done].
    + intros shuffled Hp. by rewrite <- (settle_all_Permutation _ _ Hnd Hp).
  - exfalso.
    assert (Hsf : sf0 ∈ config).
    { apply Hconf, list_elem_of_fmap. by exists (sf0, Found p0 l0). }
    apply list_elem_of_lookup in Hsf as [j Hj].
    apply settle_all_lookup in Hfound; [|done].
    by eapply Hsel.
Qed.

(** The example of the specification: B precedes C, so B wins the tie. *)
Example iphone_offer :
  terminal_offer ["A"; "B"; "C"; "D"] iphone_completions = Some (mkOffer "B" 79999).
Proof. vm_compute. reflexivity. Qed.

(** C2 at the example of the specification. *)
Lemma C2_witness :
  ∃ offer,
    terminal_offer ["A"; "B"; "C"; "D"] iphone_completions = Some offer ∧
    (∀ sf p label, (sf, Found p label) ∈ iphone_completions → offer_price offer ≤ p) ∧
    (∀ shuffled, iphone_completions ≡ₚ shuffled →
       terminal_offer ["A"; "B"; "C"; "D"] shuffled = Some offer).
Proof.
  destruct (C2_offer_is_minimum_by_precedence ["A"; "B"; "C"; "D"] iphone_completions)
    as (offer & Hoffer & _ & Hmin & _ & Hshuffle).
  - vm_compute. repeat constructor; intros H; inv_elem H.
  - intros sf Hsf. vm_compute in Hsf.
    repeat (apply elem_of_cons in Hsf as [->|Hsf]);
      [repeat constructor..|by apply elem_of_nil in Hsf].
  - exists "B", 79999, "iPhone 15". repeat constructor.
  - exists offer. split_and!; [exact Hoffer|exact Hmin|exact Hshuffle].
Defined.

(** * Further properties of the client *)


(** X1: when the product input is empty or holds only white space, that of
    Unicode included, [startSearch] gives the input the focus and returns: no
    request is sent, and the fields of the object, the elements and the price
    cards are as they were. *)
Theorem X1_startSearch_blank_input (st : State) :
  trim (productInput_value (document st)) = "" →
  startSearch st = (Normal tt, on_document (with_focused true) st) ∧
  let st' := exec startSearch st in
  productInput_focused (document st') = true ∧
  this st' = this st ∧ window st' = window st ∧
  element (document st') = element (document st) ∧
  priceCards (document st') = priceCards (document st).
Proof.
  intros H. unfold startSearch. js_run. rewrite H. by cbn.
Qed.

Lemma classList_add_idemp c el :
  classList_add c (classList_add c el) = classList_add c el.
Proof.
  unfold classList_add at 1. fold (has_class c (classList_add c el)).
  by rewrite has_class_add.
Qed.

Lemma classList_remove_idemp c el :
  classList_remove c (classList_remove c el) = classList_remove c el.
Proof.
  unfold classList_remove. cbn. f_equal.
  induction (classList el) as [|x l IH]; [done|].
  rewrite filter_cons. case_decide as Hx.
  - rewrite filter_cons, decide_True by done. by f_equal.
  - done.
Qed.

(** X2: whatever a price card showed, [resetCards] leaves it pending: not
    highlighted, loader shown, content hidden, product name ['Waiting...'],
    badge ['Pending'] with classes [status-badge pending], buy button hidden.
    The [data-app] attributes and the price text are not touched, and a
    second reset changes nothing more. *)
Theorem X2_resetCard_pending (card : Card) :
  let card' := resetCard card in
  data_app card' = data_app card ∧
  buy_data_app card' = buy_data_app card ∧
  has_class "best-price" (part card' Self) = false ∧
  has_class "hidden" (part card' Loading) = false ∧
  has_class "hidden" (part card' Content) = true ∧
  textContent (part card' ProductName) = "Waiting..." ∧
  textContent (part card' Badge) = "Pending" ∧
  classList (part card' Badge) = ["status-badge"; "pending"] ∧
  has_class "hidden" (part card' BuyBtn) = true ∧
  part card' PriceValue = part card PriceValue ∧
  ∀ p, part (resetCard card') p = part card' p.
Proof.
  intros card'. subst card'. unfold resetCard.
  split_and!; try by el_simpl.
  intros p. destruct p; el_simpl; cbn [alter fn_alter];
    rewrite ?classList_add_idemp, ?classList_remove_idemp; done.
Qed.

(** X3: with a product typed, something other than white space,
    [startSearch] forgets the previous search before it sends the request: [this.results] is empty, [results.best]
    included, every card is reset, the best-deal panel is hidden, the results
    section and the status banner are shown, and the search button is
    disabled. The task identifier and the sockets of the previous search are
    kept, and exactly one request is added. *)
Theorem X3_startSearch_clears_previous_search (st : State) :
  let product := trim (productInput_value (document st)) in
  product ≠ "" →
  let st' := exec startSearch st in
  returns startSearch st ∧
  currentProduct (this st') = JStr product ∧
  results (this st') = ∅ ∧
  priceCards (document st') = resetCard <$> priceCards (document st) ∧
  search_locked st' ∧
  has_class "hidden" (element (document st') btnLoader) = false ∧
  has_class "hidden" (element (document st') statusSection) = false ∧
  textContent (element (document st') statusTitle) = "Connecting to your phone..." ∧
  has_class "hidden" (element (document st') resultsSection) = false ∧
  has_class "hidden" (element (document st') bestDeal) = true ∧
  currentTaskId (this st') = currentTaskId (this st) ∧
  sockets (window st') = sockets (window st) ∧
  length (fetches (window st')) = S (length (fetches (window st))).
Proof.
  intros product Hne st'.
  assert (Ht : truthy (JStr product) = true) by by apply truthy_JStr.
  subst st'. unfold search_locked, startSearch, setSearchLoading, showStatus, resetCards.
  js_run. fold product. rewrite Ht. cbn [negb]. js_run.
  split_and!; try (by el_simpl); try (by eexists).
  rewrite length_app. cbn. lia.
Qed.

(** X4: when the [/search] request is rejected, or its response is not JSON
    or is JSON [null], the [catch] branch of [startSearch] runs: the banner
    reads ['Connection failed'], the search button is enabled again and its
    loader hidden; no socket is opened and the fields of the object and the
    price cards are as they were. *)
Theorem X4_startSearch_request_fails (st : State) (o : FetchOutcome) :
  o = Rejected ∨ o = Resolved None ∨ o = Resolved (Some JNull) →
  let st' := exec (startSearch_resume o) st in
  returns (startSearch_resume o) st ∧
  disabled (element (document st') searchBtn) = false ∧
  has_class "hidden" (element (document st') btnLoader) = true ∧
  has_class "hidden" (element (document st') statusSection) = false ∧
  textContent (element (document st') statusTitle) = "Connection failed" ∧
  textContent (element (document st') statusMessage)
    = "Could not connect to server. Is it running?" ∧
  this st' = this st ∧ window st' = window st ∧
  priceCards (document st') = priceCards (document st).
Proof.
  intros Ho st'. subst st'.
  unfold startSearch_resume, showStatus, setSearchLoading.
  destruct Ho as [->|[->| ->]]; js_run;
    (split_and!; try (by el_simpl); by eexists).
Qed.

(** X5: a response object without [task_id] (an error body, say) is not
    caught: [currentTaskId] becomes [undefined], a socket is opened at
    [ws://<host>/ws/undefined], and no element is written, so the search
    button stays disabled. *)
Theorem X5_startSearch_response_without_task_id
    (st : State) (response : list (string * JsVal)) :
  assoc "task_id" response = JUndefined →
  let st' := exec (startSearch_resume (Resolved (Some (JObj response)))) st in
  returns (startSearch_resume (Resolved (Some (JObj response)))) st ∧
  currentTaskId (this st') = JUndefined ∧
  sockets (window st')
    = (sockets (window st)
       ++ [mkSocket ("ws://" ++ location_host (window st) ++ "/ws/undefined")
             (Some SearchListener) false])%list ∧
  element (document st') = element (document st).
Proof.
  intros H st'. subst st'. unfold startSearch_resume, connectWebSocket.
  js_run. rewrite H. cbn [ToString].
  change (has_hash "undefined") with false. js_run.
  split_and!; try done; [by eexists|]. by rewrite list_alter_snoc.
Qed.

Lemma upper_ascii_idemp c : upper_ascii (upper_ascii c) = upper_ascii c.
Proof.
  destruct c as [[] [] [] [] [] [] [] []]; vm_compute; reflexivity.
Qed.

(** X6: [capitalize] returns, for a string, the string with its first
    code unit in upper case, and writes nothing; when the string starts with
    an ASCII character, that is a string of the same length that differs from
    it in the first character at most, and capitalizing twice is capitalizing
    once. For anything but a string ([undefined], a number, an object) it
    throws a [TypeError] and writes nothing. *)
Theorem X6_capitalize (str : JsVal) (st : State) :
  (∀ s, str = JStr s →
     capitalize str st = (Normal (capitalized s), st) ∧
     ∀ c rest, s = String c rest → (nat_of_ascii c < 128)%nat →
       capitalized s = String (upper_ascii c) rest ∧
       String.length (capitalized s) = String.length s ∧
       capitalized (capitalized s) = capitalized s) ∧
  ((∀ s, str ≠ JStr s) → capitalize str st = (Throw TypeError, st)).
Proof.
  split.
  - intros s ->. split; [done|]. intros c rest -> Hc.
    rewrite (capitalized_ascii c rest Hc). split_and!; [done..|].
    rewrite capitalized_ascii, upper_ascii_idemp; [done|].
    unfold upper_ascii. destruct (_ && _) eqn:E; [|done].
    rewrite nat_ascii_embedding; lia.
  - intros H. destruct str; try done. by destruct (H s).
Qed.

(** X7: an update whose [current_app] is truthy but not a string makes
    [handleUpdate] throw a [TypeError] before it writes anything: the rest of
    the update, a result or a ['completed'] status, is not handled, and the
    frame leaves the page as it was. *)
Theorem X7_handleUpdate_malformed_current_app
    (st : State) (fields : list (string * JsVal)) :
  truthy (assoc "current_app" fields) = true →
  (∀ s, assoc "current_app" fields ≠ JStr s) →
  handleUpdate (JObj fields) st = (Throw TypeError, st) ∧
  ∀ socket s, has_socket socket s st → ws_onmessage s = Some SearchListener →
    ws_closed s = false →
    dispatch (MessageArrives socket (Some (JObj fields))) st = st.
Proof.
  intros Ht Hs.
  assert (H : handleUpdate (JObj fields) st = (Throw TypeError, st)).
  { unfold handleUpdate, handleUpdate_current_app. js_run. rewrite Ht.
    destruct (assoc "current_app" fields) as [| | | |s| |]; try done.
    by destruct (Hs s). }
  split; [done|]. intros socket s Hsock Hl Hc.
  rewrite (search_socket_routes_to_handleUpdate st socket s _ Hsock Hl Hc).
  unfold exec. by rewrite H.
Qed.

(** X8: a terminal update whose [best] object has no string [app] makes
    [handleSearchComplete] throw a [TypeError] after it has cleared the
    loading state and stored the object as [results.best]: the best-deal
    panel and its texts are not written and no card is highlighted. *)
Theorem X8_handleSearchComplete_best_without_app
    (st : State) (fields best : list (string * JsVal)) :
  assoc "best" fields = JObj best →
  (∀ a, assoc "app" best ≠ JStr a) →
  let st' := exec (handleSearchComplete (JObj fields)) st in
  fst (handleSearchComplete (JObj fields) st) = Throw TypeError ∧
  results (this st') = <["best" := JObj best]> (results (this st)) ∧
  disabled (element (document st') searchBtn) = false ∧
  has_class "hidden" (element (document st') statusSection) = true ∧
  (∀ id, id ∈ [bestDeal; bestApp; bestPrice; bestAppBtn] →
     element (document st') id = element (document st) id) ∧
  priceCards (document st') = priceCards (document st) ∧
  window st' = window st.
Proof.
  intros Hbest Happ st'. subst st'.
  unfold handleSearchComplete, setSearchLoading. js_run. rewrite Hbest.
  cbn [truthy]. js_run.
  destruct (assoc "app" best) as [| | | |a| |] eqn:E; try (by destruct (Happ a));
    js_run; (split_and!; try done; try (by el_simpl);
    intros id Hid;
    rewrite !fn_lookup_alter_ne by (intros ?; subst; inv_elem Hid); done).
Qed.

(** X10: when a found result for a storefront is followed by a result that
    takes the not-found branch, the card shows ['--'] under an ['Error']
    badge and [this.results] holds the second result, but the buy button,
    revealed by the first, is still shown: the not-found branch does not hide
    it. *)
Theorem X10_updateCard_not_found_after_found
    (st : State) (app : JsVal) (r1 r2 : list (string * JsVal)) (i : nat) (card : Card) :
  find_card (ToString app) st = Some (i, card) →
  truthy (assoc "found" r1) && truthy (assoc "price" r1) = true →
  truthy (assoc "found" r2) && truthy (assoc "price" r2) = false →
  let st' := exec (updateCard app (JObj r1) ;; updateCard app (JObj r2)) st in
  returns (updateCard app (JObj r1) ;; updateCard app (JObj r2)) st ∧
  results (this st') !! ToString app = Some (JObj r2) ∧
  ∃ card', find_card (ToString app) st' = Some (i, card') ∧
    textContent (part card' PriceValue) = "--" ∧
    textContent (part card' Badge) = "Error" ∧
    has_class "hidden" (part card' BuyBtn) = false.
Proof.
  intros Hfind H1 H2 st'. subst st'.
  apply find_card_Some in Hfind as [Hsafe Hfind].
  rewrite (find_card_safe (ToString app)) by done.
  unfold updateCard. rewrite (querySelector_card_safe _ Hsafe).
  js_run. rewrite Hfind. js_run.
  rewrite truthy_js_and, H1. js_run.
  match goal with
  | |- context [list_find _ (alter ?f i ?l)] =>
      eassert (Hfind1 : list_find (λ c, data_app c = Some (ToString app))
                          (alter f i l) = Some (i, _))
        by find_written_card Hfind
  end.
  rewrite Hfind1. js_run. rewrite truthy_js_and, H2. js_run.
  split; [by eexists|]. split; [by rewrite lookup_insert_eq|].
  eexists. split; [find_written_card Hfind|].
  split_and!; by el_simpl.
Qed.

(** [updateCard], on a storefront that has a card and a result object, as
    one write to the card and one to [this.results]. *)
Lemma updateCard_rendered (st : State) (app : JsVal) (r : list (string * JsVal)) i card :
  find_card (ToString app) st = Some (i, card) →
  updateCard app (JObj r) st
  = (Normal tt,
     mkState
       (with_results (<[ToString app := JObj r]> (results (this st))) (this st))
       (with_priceCards
          (alter (rendered (currentProduct (this st)) r) i (priceCards (document st)))
          (document st))
       (window st)).
Proof.
  intros Hfind. apply find_card_Some in Hfind as [Hsafe Hfind].
  unfold updateCard. rewrite (querySelector_card_safe _ Hsafe).
  js_run. rewrite Hfind. js_run.
  rewrite truthy_js_and. unfold rendered.
  destruct (truthy (assoc "found" r) && truthy (assoc "price" r)); js_run;
    by rewrite !list_alter_alter_eq.
Qed.

Lemma updateCard_without_card (st : State) (app result : JsVal) :
  selector_safe (ToString app) = true →
  find_card (ToString app) st = None → updateCard app result st = (Normal tt, st).
Proof.
  intros Hsafe H. rewrite find_card_safe in H by done.
  unfold updateCard. rewrite (querySelector_card_safe _ Hsafe). js_run.
  by rewrite H.
Qed.

Lemma list_find_alter_None app (f : Card → Card) j (cards : list Card) :
  (∀ c, data_app (f c) = data_app c) →
  list_find (λ c, data_app c = Some app) cards = None →
  list_find (λ c, data_app c = Some app) (alter f j cards) = None.
Proof.
  intros Hf H. rewrite list_find_None in *.
  apply Forall_lookup. intros k y Hk.
  destruct (decide (j = k)) as [->|Hne].
  - rewrite list_lookup_alter_eq in Hk.
    destruct (cards !! k) as [z|] eqn:Hz; simplify_eq/=.
    rewrite Hf. by eapply (Forall_lookup_1 _ _ _ _ H).
  - rewrite list_lookup_alter_ne in Hk by done.
    by eapply (Forall_lookup_1 _ _ _ _ H).
Qed.

Lemma rendered_data_app p r c : data_app (rendered p r c) = data_app c.
Proof. unfold rendered. by destruct (_ && _). Qed.

Lemma exec_bind {A B} (m : Js A) (k : A → Js B) st a st1 :
  m st = (Normal a, st1) → exec (bind m k) st = exec (k a) st1.
Proof. intros H. unfold exec, bind. by rewrite H. Qed.

(** X11: results for two different storefronts, both with identifiers that
    stay inside the quotes of the card selector, can arrive in either order:
    the state after [updateCard] for one and then the other is the same both
    ways round, whether or not the storefronts have price cards. *)
Theorem X11_updateCard_commute
    (st : State) (a b : JsVal) (r1 r2 : list (string * JsVal)) :
  selector_safe (ToString a) = true →
  selector_safe (ToString b) = true →
  ToString a ≠ ToString b →
  exec (updateCard a (JObj r1) ;; updateCard b (JObj r2)) st
  = exec (updateCard b (JObj r2) ;; updateCard a (JObj r1)) st.
Proof.
  intros Hsa Hsb Hne.
  destruct (find_card (ToString a) st) as [[i ca]|] eqn:Ha;
    destruct (find_card (ToString b) st) as [[j cb]|] eqn:Hb.
  - assert (Hij : i ≠ j).
    { intros ->. rewrite find_card_safe in Ha, Hb by done.
      rewrite list_find_Some in Ha, Hb.
      destruct Ha as (Hi & Hda & _), Hb as (Hj & Hdb & _). congruence. }
    rewrite (exec_bind _ _ _ _ _ (updateCard_rendered st a r1 i ca Ha)).
    rewrite (exec_bind _ _ _ _ _ (updateCard_rendered st b r2 j cb Hb)).
    unfold exec.
    erewrite (updateCard_rendered _ b r2 j), (updateCard_rendered _ a r1 i).
    + cbn. f_equal.
      * unfold with_results. cbn. f_equal. by apply insert_insert_ne.
      * unfold with_priceCards. cbn. f_equal. by apply list_alter_alter_ne.
    + rewrite find_card_safe in * by done. cbn.
      erewrite list_find_alter_Some; [|apply rendered_data_app|exact Ha].
      by rewrite decide_False.
    + rewrite find_card_safe in * by done. cbn.
      erewrite list_find_alter_Some; [|apply rendered_data_app|exact Hb].
      by rewrite decide_False.
  - rewrite (exec_bind _ _ _ _ _ (updateCard_rendered st a r1 i ca Ha)).
    rewrite (exec_bind _ _ _ _ _ (updateCard_without_card st b _ Hsb Hb)).
    unfold exec.
    rewrite updateCard_without_card, (updateCard_rendered st a r1 i ca Ha);
      [done|done|].
    rewrite find_card_safe in * by done. cbn.
    by apply list_find_alter_None; [apply rendered_data_app|].
  - rewrite (exec_bind _ _ _ _ _ (updateCard_without_card st a _ Hsa Ha)).
    rewrite (exec_bind _ _ _ _ _ (updateCard_rendered st b r2 j cb Hb)).
    unfold exec.
    rewrite (updateCard_rendered st b r2 j cb Hb), updateCard_without_card;
      [done|done|].
    rewrite find_card_safe in * by done. cbn.
    by apply list_find_alter_None; [apply rendered_data_app|].
  - rewrite (exec_bind _ _ _ _ _ (updateCard_without_card st a _ Hsa Ha)).
    rewrite (exec_bind _ _ _ _ _ (updateCard_without_card st b _ Hsb Hb)).
    unfold exec.
    by rewrite (updateCard_without_card st a _ Hsa Ha),
      (updateCard_without_card st b _ Hsb Hb).
Qed.


(** What [handleUpdate] leaves alone. *)
Section handleUpdate_frame.
Context (st0 : State).







End handleUpdate_frame.

Ltac in_list := unfold search_elements, order_elements; repeat constructor.



(** What the order flow leaves alone. *)
Section order_frame.
Context (st0 : State).

Lemma order_on_element id f :
  id ∈ order_elements → preserves (outside_order st0) (on_element id f).
Proof.
  intros Hid st (?&?&?&?&?&?&?&Hel). unfold outside_order. js_run.
  split_and!; try done. intros id' Hid'. rewrite fn_lookup_alter_ne; [by apply Hel|].
  by intros ->.
Qed.

Lemma order_on_window f : preserves (outside_order st0) (modify (on_window f)).
Proof. by intros st H. Qed.

Lemma order_selectedOrderApp v :
  preserves (outside_order st0) (modify (on_this (with_selectedOrderApp v))).
Proof. by intros st H. Qed.

Lemma order_new_WebSocket {B} host taskId (k : nat → Js B) :
  (∀ a, preserves (outside_order st0) (k a)) →
  preserves (outside_order st0) (bind (new_WebSocket host taskId) k).
Proof.
  intros Hk st H. unfold exec, bind, new_WebSocket.
  destruct (has_hash taskId); [done|].
  apply (Hk (length (sockets (window st)))). exact H.
Qed.

Lemma order_get_prop v k : preserves (outside_order st0) (get_prop v k).
Proof. intros st H. by destruct v. Qed.

Lemma order_capitalize v : preserves (outside_order st0) (capitalize v).
Proof. intros st H. by destruct v. Qed.

End order_frame.

Ltac order_frame :=
  repeat first
    [ apply preserves_ret | apply preserves_throw | apply preserves_gets
    | apply order_get_prop | apply order_capitalize
    | apply order_on_element; in_list
    | apply order_on_window | apply order_selectedOrderApp
    | apply order_new_WebSocket; intros ?
    | apply preserves_try_catch; [|intros ?]
    | apply preserves_bind; [|intros ?]
    | match goal with
      | |- preserves _ (match ?x with _ => _ end) => destruct x
      end ].

(** X18: no event of the order flow (the buy, cancel and confirm buttons,
    the response to [/order], a frame on an order socket, a timer) changes
    the search: [this.results], the product, the task identifier, the product
    input, the price cards and every element outside the order dialogs, the
    search button among them, are as they were. *)
Theorem X18_order_flow_frame (e : Event) (st : State) :
  order_event st e → outside_order st (dispatch e st).
Proof.
  intros He.
  assert (H0 : outside_order st st) by (unfold outside_order; by split_and!).
  destruct e as [text| | |card| | | |request o|socket event_data|timer];
    cbn [order_event dispatch] in *; try done.
  - destruct (priceCards (document st) !! card) as [c|]; [|done].
    assert (Hp : preserves (outside_order st)
                   (showOrderModal (from_option (buy_data_app c))))
      by (unfold showOrderModal; order_frame).
    exact (Hp st H0).
  - assert (Hp : preserves (outside_order st) onclick_buyBest)
      by (unfold onclick_buyBest, showOrderModal; order_frame).
    exact (Hp st H0).
  - assert (Hp : preserves (outside_order st) hideOrderModal)
      by (unfold hideOrderModal; order_frame).
    exact (Hp st H0).
  - assert (Hp : preserves (outside_order st) placeOrder)
      by (unfold placeOrder, hideOrderModal, fetch; order_frame).
    exact (Hp st H0).
  - destruct He as (f & -> & Hk). destruct (fetch_settled f); [done|].
    rewrite Hk. cbn [resume].
    assert (Hp : preserves (outside_order st) (placeOrder_resume o))
      by (unfold placeOrder_resume, response_json, set_onmessage, setTimeout;
          order_frame).
    exact (Hp (settle_fetch request st) H0).
  - destruct He as (s & -> & Hl). destruct (ws_closed s); [done|]. rewrite Hl.
    assert (Hp : preserves (outside_order st) (onmessage_order socket event_data))
      by (unfold onmessage_order, JSON_parse, setTimeout, ws_close; order_frame).
    exact (Hp st H0).
  - destruct (timers (window st) !! timer) as [t|]; [|done].
    destruct (timer_fired t); [done|]. destruct (timer_callback t).
    assert (Hp : preserves (outside_order st) (run_callback HideOrderStatusModal))
      by (unfold run_callback; order_frame).
    exact (Hp (fire_timer timer st) H0).
Qed.

(** X12: [showOrderModal] with a string opens the order dialog for that
    storefront: it is selected, its capitalized name and the current product
    are shown, the dialog is no longer hidden. With anything else (the
    [data-app] missing from a buy button) it throws a [TypeError] once the
    value is recorded as the selection, and the dialog is not written. *)
Theorem X12_showOrderModal (app : JsVal) (st : State) :
  (∀ a, app = JStr a →
     let st' := exec (showOrderModal app) st in
     returns (showOrderModal app) st ∧
     selectedOrderApp (this st') = JStr a ∧
     textContent (element (document st') orderApp) = capitalized a ∧
     textContent (element (document st') orderProduct)
       = text_of (currentProduct (this st)) ∧
     has_class "hidden" (element (document st') orderModal) = false) ∧
  ((∀ a, app ≠ JStr a) →
     showOrderModal app st
     = (Throw TypeError, on_this (with_selectedOrderApp app) st)).
Proof.
  split.
  - intros a -> st'. subst st'. unfold showOrderModal. js_run.
    split_and!; try (by el_simpl). by eexists.
  - intros H. unfold showOrderModal. js_run.
    destruct app; try done. by destruct (H s).
Qed.

(** X13: [placeOrder] without a string as selected storefront throws a
    [TypeError] outside its [try] block: no request is sent and no timer is
    set, the order dialog is hidden and the order status dialog is shown,
    with no timer to dismiss it, its message as it was. *)
Theorem X13_placeOrder_without_storefront (st : State) :
  (∀ a, selectedOrderApp (this st) ≠ JStr a) →
  let st' := exec placeOrder st in
  fst (placeOrder st) = Throw TypeError ∧
  window st' = window st ∧
  has_class "hidden" (element (document st') orderModal) = true ∧
  has_class "hidden" (element (document st') orderStatusModal) = false ∧
  textContent (element (document st') orderStatusMsg)
    = textContent (element (document st) orderStatusMsg).
Proof.
  intros H st'. subst st'.
  destruct (selectedOrderApp (this st)) as [| | | |a| |] eqn:E;
    try (by destruct (H a));
    unfold placeOrder, hideOrderModal; js_run; rewrite E; js_run;
    split_and!; by el_simpl.
Qed.

(** X14: an update with status ['completed'] on the order socket reports
    the success: the message reads ['Your order has been placed
    successfully!'], the dialog stays as it is until a timer of 3000 ms,
    set now, fires and hides it, the order socket is closed, and no request
    is sent. *)
Theorem X14_order_completed
    (st : State) (orderWs : nat) (update : list (string * JsVal)) :
  assoc "status" update = JStr "completed" →
  let event_data := Some (JObj update) in
  let st' := exec (onmessage_order orderWs event_data) st in
  returns (onmessage_order orderWs event_data) st ∧
  textContent (element (document st') orderStatusMsg)
    = "Your order has been placed successfully!" ∧
  has_class "hidden" (element (document st') orderStatusModal)
    = has_class "hidden" (element (document st) orderStatusModal) ∧
  timers (window st')
    = (timers (window st) ++ [mkTimer 3000 HideOrderStatusModal false])%list ∧
  has_class "hidden"
    (element (document (dispatch (TimerFires (length (timers (window st)))) st'))
       orderStatusModal) = true ∧
  (∀ s, sockets (window st) !! orderWs = Some s →
     sockets (window st') !! orderWs
       = Some (mkSocket (ws_url s) (ws_onmessage s) true)) ∧
  fetches (window st') = fetches (window st).
Proof.
  intros Hstatus event_data st'. subst st' event_data.
  unfold onmessage_order. js_run. rewrite Hstatus.
  cbn [strict_eq_str String.eqb Ascii.eqb Bool.eqb]. js_run.
  split_and!; try (by el_simpl).
  - by eexists.
  - unfold dispatch. js_run. rewrite lookup_app_r by done.
    rewrite Nat.sub_diag. cbn. by el_simpl.
  - intros s Hs. by rewrite list_lookup_alter_eq, Hs.
Qed.

Lemma onmessage_order_ignores (st : State) (orderWs : nat) (event_data : option JsVal) :
  terminal_frame event_data = false →
  exec (onmessage_order orderWs event_data) st = st.
Proof.
  intros H. unfold onmessage_order. js_run.
  destruct event_data as [[| | | | | |update]|]; try done.
  cbn [terminal_frame] in H. apply orb_false_iff in H as [-> ->]. done.
Qed.

(** X15: the order listener acts on terminal updates only: a frame that is
    not JSON text, a JSON value that is not an object, or an object whose
    status is neither ['completed'] nor ['error'], leaves the state exactly
    as it was. *)
Theorem X15_order_listener_ignores_other_frames
    (st : State) (orderWs : nat) (event_data : option JsVal) :
  (∀ update, event_data = Some (JObj update) →
     assoc "status" update ≠ JStr "completed" ∧
     assoc "status" update ≠ JStr "error") →
  exec (onmessage_order orderWs event_data) st = st.
Proof.
  intros H. apply onmessage_order_ignores.
  destruct event_data as [[| | | | | |update]|]; try done.
  destruct (H update eq_refl) as [H1 H2]. cbn [terminal_frame].
  apply orb_false_iff. split.
  - destruct (strict_eq_str _ "completed") eqn:E; [|done].
    by apply strict_eq_str_true in E.
  - destruct (strict_eq_str _ "error") eqn:E; [|done].
    by apply strict_eq_str_true in E.
Qed.

(** A closed socket delivers nothing. *)
Lemma closed_socket_ignores (st : State) (i : nat) (s : Socket) (frames : list (option JsVal)) :
  has_socket i s st → ws_closed s = true →
  run (MessageArrives i <$> frames) st = st.
Proof.
  intros Hs Hc. unfold run.
  induction frames as [|d frames IH]; [done|].
  cbn [fmap list_fmap foldl dispatch]. unfold has_socket in Hs.
  by rewrite Hs, Hc.
Qed.

(** A terminal frame closes the order socket. *)
Lemma terminal_frame_closes (st : State) (i : nat) (s : Socket) (d : option JsVal) :
  has_socket i s st → terminal_frame d = true →
  has_socket i (mkSocket (ws_url s) (ws_onmessage s) true)
    (exec (onmessage_order i d) st).
Proof.
  intros Hs Ht. unfold has_socket in *.
  destruct d as [[| | | | | |update]|]; try done. cbn [terminal_frame] in Ht.
  unfold onmessage_order. js_run.
  destruct (strict_eq_str (assoc "status" update) "completed"); js_run;
    [by rewrite list_lookup_alter_eq, Hs|].
  cbn [orb] in Ht. rewrite Ht. js_run. by rewrite list_lookup_alter_eq, Hs.
Qed.

(** X16: of the frames that arrive on an open order socket only the first
    terminal one has an effect: the state after all of them is the state
    after that frame alone, or the state before when there is none. So an
    order sets at most one timer. *)
Theorem X16_order_socket_first_terminal_frame
    (st : State) (i : nat) (s : Socket) (frames : list (option JsVal)) :
  has_socket i s st →
  ws_onmessage s = Some OrderListener →
  ws_closed s = false →
  let st' := run (MessageArrives i <$> frames) st in
  st' = match list_find (λ d, terminal_frame d = true) frames with
        | Some (_, d) => dispatch (MessageArrives i d) st
        | None => st
        end ∧
  (length (timers (window st')) ≤ S (length (timers (window st))))%nat.
Proof.
  intros Hs Hl Hc st'.
  assert (Heq : st' = match list_find (λ d, terminal_frame d = true) frames with
        | Some (_, d) => dispatch (MessageArrives i d) st
        | None => st
        end).
  { subst st'. induction frames as [|d frames IH]; [done|].
    cbn [fmap list_fmap list_find]. unfold run in *. cbn [foldl].
    assert (Hd : dispatch (MessageArrives i d) st = exec (onmessage_order i d) st).
    { by apply (order_socket_routes_to_listener st i s). }
    case_decide as Ht.
    - rewrite Hd.
      apply (closed_socket_ignores _ i (mkSocket (ws_url s) (ws_onmessage s) true));
        [by apply terminal_frame_closes|done].
    - apply not_true_is_false in Ht.
      rewrite Hd, (onmessage_order_ignores _ _ _ Ht).
      fold (run (MessageArrives i <$> frames) st). unfold run. rewrite IH.
      by destruct (list_find _ frames) as [[? ?]|]. }
  split; [exact Heq|]. rewrite Heq.
  destruct (list_find _ frames) as [[k d]|]; [|lia].
  rewrite (order_socket_routes_to_listener st i s d Hs Hl Hc).
  destruct (terminal_frame d) eqn:Ht;
    [|rewrite (onmessage_order_ignores _ _ _ Ht); lia].
  destruct d as [[| | | | | |update]|]; try done. cbn [terminal_frame] in Ht.
  unfold onmessage_order. js_run.
  destruct (strict_eq_str (assoc "status" update) "completed"); js_run;
    [rewrite length_app; cbn; lia|].
  cbn [orb] in Ht. rewrite Ht. js_run. rewrite length_app. cbn. lia.
Qed.

(** X17: when the [/order] request is rejected, or its response is not
    JSON or is JSON [null], the [catch] branch of [placeOrder] runs: the
    message reads ['Failed to communicate with server'], a timer of 3000 ms
    is set whose firing hides the order status dialog, and no socket is
    opened. *)
Theorem X17_placeOrder_request_fails (st : State) (o : FetchOutcome) :
  o = Rejected ∨ o = Resolved None ∨ o = Resolved (Some JNull) →
  let st' := exec (placeOrder_resume o) st in
  returns (placeOrder_resume o) st ∧
  textContent (element (document st') orderStatusMsg)
    = "Failed to communicate with server" ∧
  timers (window st')
    = (timers (window st) ++ [mkTimer 3000 HideOrderStatusModal false])%list ∧
  has_class "hidden"
    (element (document (dispatch (TimerFires (length (timers (window st)))) st'))
       orderStatusModal) = true ∧
  sockets (window st') = sockets (window st) ∧
  this st' = this st.
Proof.
  intros Ho st'. subst st'. unfold placeOrder_resume.
  destruct Ho as [->|[->| ->]]; js_run;
    (split_and!; try (by el_simpl); [by eexists|]);
    unfold dispatch; js_run; rewrite lookup_app_r by done;
    rewrite Nat.sub_diag; cbn; by el_simpl.
Qed.

(** X19: after a terminal update with [best = {app, ...}], a click on the
    best-deal button opens the order dialog for that storefront, and
    confirming it hides the dialog and sends [POST /order] for the current
    product and that storefront. *)
Theorem X19_buy_best_orders_winner
    (st : State) (fields best : list (string * JsVal)) (a : string) :
  assoc "best" fields = JObj best →
  assoc "app" best = JStr a →
  let st1 := exec (handleSearchComplete (JObj fields)) st in
  let st2 := dispatch ClickBuyBest st1 in
  let st3 := dispatch ClickConfirm st2 in
  selectedOrderApp (this st2) = JStr a ∧
  textContent (element (document st2) orderApp) = capitalized a ∧
  has_class "hidden" (element (document st2) orderModal) = false ∧
  has_class "hidden" (element (document st3) orderModal) = true ∧
  fetches (window st3)
    = (fetches (window st)
       ++ [mkFetch "/order" "POST" [("Content-Type", "application/json")]
             (stringify (JObj [("product", currentProduct (this st)); ("app", JStr a)]))
             InPlaceOrder false])%list.
Proof.
  intros Hbest Happ st1 st2 st3. subst st3 st2 st1.
  unfold dispatch, onclick_buyBest, showOrderModal, placeOrder, hideOrderModal,
    handleSearchComplete, setSearchLoading.
  js_run. rewrite Hbest. cbn [truthy]. js_run. rewrite Happ. js_run. cbn [ToString].
  unfold querySelector_card. destruct (card_selector a); js_run;
    try (destruct (list_find _ _) as [[i c]|]; js_run);
    rewrite lookup_insert_eq; cbn [stdpp.option.from_option id truthy]; js_run;
    rewrite Happ; js_run; split_and!; by el_simpl.
Qed.

(** X20: timers are never cleared: when a dismissal timer of an earlier
    order is still pending while [placeOrder] shows the status dialog of a
    new order, the firing of that timer hides the dialog of the new order,
    whose request is still in flight. *)
Theorem X20_stale_timer_hides_new_order_dialog
    (st : State) (a : string) (i : nat) (t : Timer) :
  selectedOrderApp (this st) = JStr a →
  timers (window st) !! i = Some t →
  timer_fired t = false →
  let st1 := exec placeOrder st in
  let st2 := dispatch (TimerFires i) st1 in
  has_class "hidden" (element (document st1) orderStatusModal) = false ∧
  has_class "hidden" (element (document st2) orderStatusModal) = true ∧
  fetches (window st2) = fetches (window st1) ∧
  length (fetches (window st1)) = S (length (fetches (window st))).
Proof.
  intros Happ Ht Hf st1 st2. subst st2 st1.
  unfold dispatch, placeOrder, hideOrderModal. js_run. rewrite Happ. js_run.
  rewrite Ht, Hf. destruct t as [d [] f]. cbn [timer_callback run_callback]. js_run.
  split_and!; try by el_simpl. rewrite length_app. cbn. lia.
Qed.

(** X22: a click on the buy button of a card opens the order dialog for the
    storefront in the button's [data-app], and confirming it sends
    [POST /order] for the current product and that storefront. *)
Theorem X22_buy_button_orders_its_storefront
    (st : State) (i : nat) (card : Card) (a : string) :
  priceCards (document st) !! i = Some card →
  buy_data_app card = Some a →
  let st1 := dispatch (ClickBuy i) st in
  let st2 := dispatch ClickConfirm st1 in
  selectedOrderApp (this st1) = JStr a ∧
  textContent (element (document st1) orderApp) = capitalized a ∧
  has_class "hidden" (element (document st1) orderModal) = false ∧
  has_class "hidden" (element (document st2) orderModal) = true ∧
  fetches (window st2)
    = (fetches (window st)
       ++ [mkFetch "/order" "POST" [("Content-Type", "application/json")]
             (stringify (JObj [("product", currentProduct (this st)); ("app", JStr a)]))
             InPlaceOrder false])%list.
Proof.
  intros Hcard Hbuy st1 st2. subst st2 st1.
  unfold dispatch, showOrderModal, placeOrder, hideOrderModal.
  js_run. rewrite Hcard, Hbuy. cbn [from_option]. js_run.
  split_and!; by el_simpl.
Qed.

(** X21: while a search is running the search button stays disabled
    whatever happens on the page (typing, clicks, the Enter key, orders,
    timers, progress and result updates), as long as no update carries the
    status ['completed'] and every request is answered with a JSON object
    whose task identifier holds no [#]. *)
Theorem X21_searchBtn_stays_disabled (events : list Event) (st : State) :
  search_locked st →
  Forall (λ e, may_unlock e = false) events →
  search_locked (run events st).
Proof.
  intros Hlocked Hquiet. revert st Hlocked.
  induction Hquiet as [|e events He _ IH]; intros st Hlocked; [done|].
  change (run (e :: events) st) with (run events (dispatch e st)).
  apply IH.
  destruct (disabled (element (document (dispatch e st)) searchBtn)) eqn:Hbtn; [done|].
  assert (Hopen : ¬ search_locked (dispatch e st)).
  { unfold search_locked. rewrite Hbtn. done. }
  destruct (searchBtn_enabled_only_by_complete_or_catch e st Hlocked Hopen)
    as [(socket & s & fields & -> & _ & _ & Hstatus)
       |(request & f & o & -> & _ & _ & Ho)].
  - cbn [may_unlock] in He. rewrite Hstatus in He. done.
  - cbn [may_unlock] in He.
    repeat case_match; try done. rewrite (Ho _ eq_refl) in He. done.
Qed.

(** ** The properties at work *)

Lemma X1_witness :
  let st := dispatch (TypeProduct (" " ++ encode 160 ++ encode 12288)) fresh in
  productInput_focused (document (exec startSearch st)) = true ∧
  window (exec startSearch st) = window st.
Proof.
  intros st.
  destruct (X1_startSearch_blank_input st) as (_ & Hfocus & _ & Hwindow & _).
  - vm_compute. reflexivity.
  - split; [exact Hfocus|exact Hwindow].
Defined.

Lemma X3_witness :
  let st := dispatch (TypeProduct (encode 160 ++ "bread" ++ encode 12288)) ordering in
  let st' := exec startSearch st in
  results (this st) !! "best"
    = Some (JObj [("app", JStr "flipkart"); ("price", JNum 79999)]) ∧
  results (this st') = ∅ ∧
  has_class "hidden" (element (document st') bestDeal) = true ∧
  currentProduct (this st') = JStr "bread".
Proof.
  intros st st'.
  destruct (X3_startSearch_clears_previous_search st)
    as (_ & Hproduct & Hresults & _ & _ & _ & _ & _ & _ & Hdeal & _).
  - vm_compute. discriminate.
  - split_and!; [vm_compute; reflexivity|exact Hresults|exact Hdeal|].
    etransitivity; [exact Hproduct|]. vm_compute. reflexivity.
Defined.

Lemma X4_witness :
  let st := run [TypeProduct "milk"; ClickSearch] fresh in
  let st' := exec (startSearch_resume Rejected) st in
  disabled (element (document st) searchBtn) = true ∧
  disabled (element (document st') searchBtn) = false ∧
  textContent (element (document st') statusTitle) = "Connection failed" ∧
  sockets (window st') = [].
Proof.
  intros st st'.
  destruct (X4_startSearch_request_fails st Rejected)
    as (_ & Hbtn & _ & _ & Htitle & _ & _ & Hwindow & _).
  - left. reflexivity.
  - split_and!; [reflexivity|exact Hbtn|exact Htitle|].
    exact (f_equal sockets Hwindow).
Defined.

Lemma X5_witness :
  let st := run [TypeProduct "milk"; ClickSearch] fresh in
  let response := [("detail", JStr "Internal Server Error")] in
  let st' := exec (startSearch_resume (Resolved (Some (JObj response)))) st in
  ws_url <$> sockets (window st') = ["ws://localhost:8000/ws/undefined"] ∧
  disabled (element (document st') searchBtn) = true.
Proof.
  intros st response st'.
  destruct (X5_startSearch_response_without_task_id st response eq_refl)
    as (_ & _ & Hsock & Hel).
  split.
  - exact (f_equal (fmap ws_url) Hsock).
  - exact (f_equal (λ el, disabled (el searchBtn)) Hel).
Defined.

Lemma X6_witness :
  capitalized "zepto" = "Zepto" ∧
  capitalize (JStr "ßa") fresh = (Normal "SSa", fresh) ∧
  capitalize JUndefined fresh = (Throw TypeError, fresh).
Proof.
  destruct (X6_capitalize (JStr "zepto") fresh) as (Hascii & _).
  destruct (X6_capitalize (JStr "ßa") fresh) as (Hstr & _).
  destruct (X6_capitalize JUndefined fresh) as (_ & Hother).
  split_and!.
  - destruct (Hascii "zepto" eq_refl) as (_ & Hfirst).
    destruct (Hfirst "z"%char "epto" eq_refl) as (Heq & _).
    + vm_compute. lia.
    + exact Heq.
  - exact (proj1 (Hstr "ßa" eq_refl)).
  - apply Hother. discriminate.
Defined.

Lemma X7_witness :
  let fields := [("current_app", JNum 7); ("status", JStr "completed")] in
  handleUpdate (JObj fields) searching = (Throw TypeError, searching) ∧
  dispatch (MessageArrives 0 (Some (JObj fields))) searching = searching.
Proof.
  intros fields.
  destruct (X7_handleUpdate_malformed_current_app searching fields) as (Hthrow & Hframe).
  - reflexivity.
  - discriminate.
  - split; [exact Hthrow|].
    apply (Hframe 0%nat (mkSocket "ws://localhost:8000/ws/t1" (Some SearchListener) false)).
    + vm_compute. reflexivity.
    + reflexivity.
    + reflexivity.
Defined.

Lemma X8_witness :
  let best := [("price", JNum 5)] in
  let data := JObj [("status", JStr "completed"); ("best", JObj best)] in
  let st' := exec (handleSearchComplete data) searching in
  fst (handleSearchComplete data searching) = Throw TypeError ∧
  results (this st') !! "best" = Some (JObj best) ∧
  has_class "hidden" (element (document st') bestDeal) = true.
Proof.
  intros best data st'.
  destruct (X8_handleSearchComplete_best_without_app searching
              [("status", JStr "completed"); ("best", JObj best)] best eq_refl)
    as (Hthrow & Hres & _ & _ & Hel & _).
  - discriminate.
  - split_and!; [exact Hthrow| |].
    + fold data st' in Hres. rewrite Hres. apply lookup_insert_eq.
    + fold data st' in Hel. rewrite (Hel bestDeal); [reflexivity|].
      repeat constructor.
Defined.

Lemma X10_witness :
  let found := [("found", JBool true); ("price", JNum 54)] in
  let lost := [("found", JBool false); ("error", JStr "Timed out")] in
  let st' := exec (updateCard (JStr "amazon") (JObj found) ;;
                   updateCard (JStr "amazon") (JObj lost)) searching in
  ∃ card', find_card "amazon" st' = Some (0%nat, card') ∧
    textContent (part card' Badge) = "Error" ∧
    has_class "hidden" (part card' BuyBtn) = false.
Proof.
  intros found lost st'.
  destruct (X10_updateCard_not_found_after_found searching (JStr "amazon") found lost
              0%nat (resetCard (blank_card "amazon")))
    as (_ & _ & card' & Hfind & _ & Hbadge & Hbuy).
  - vm_compute. reflexivity.
  - reflexivity.
  - reflexivity.
  - exists card'. split_and!; [exact Hfind|exact Hbadge|exact Hbuy].
Defined.

Lemma X11_witness :
  let amazon := [("found", JBool true); ("price", JNum 54)] in
  let zepto := [("found", JBool false)] in
  exec (updateCard (JStr "amazon") (JObj amazon) ;;
        updateCard (JStr "zepto") (JObj zepto)) searching
  = exec (updateCard (JStr "zepto") (JObj zepto) ;;
          updateCard (JStr "amazon") (JObj amazon)) searching.
Proof.
  intros amazon zepto.
  apply (X11_updateCard_commute searching (JStr "amazon") (JStr "zepto")).
  - reflexivity.
  - reflexivity.
  - discriminate.
Defined.

Lemma X12_witness :
  let st' := exec (showOrderModal (JStr "ñandú")) searching in
  textContent (element (document st') orderApp) = "Ñandú" ∧
  textContent (element (document st') orderProduct) = "milk" ∧
  has_class "hidden" (element (document st') orderModal) = false ∧
  fst (showOrderModal JUndefined searching) = Throw TypeError.
Proof.
  intros st'.
  destruct (X12_showOrderModal (JStr "ñandú") searching) as (Hstr & _).
  destruct (X12_showOrderModal JUndefined searching) as (_ & Hother).
  destruct (Hstr "ñandú" eq_refl) as (_ & _ & Happ & Hproduct & Hshown).
  split_and!; [|exact Hproduct|exact Hshown|].
  - etransitivity; [exact Happ|]. vm_compute. reflexivity.
  - rewrite Hother; [reflexivity|discriminate].
Defined.

Lemma X13_witness :
  fst (placeOrder fresh) = Throw TypeError ∧
  fetches (window (exec placeOrder fresh)) = [] ∧
  has_class "hidden" (element (document (exec placeOrder fresh)) orderStatusModal)
  = false.
Proof.
  destruct (X13_placeOrder_without_storefront fresh)
    as (Hthrow & Hwindow & _ & Hshown & _).
  - discriminate.
  - split_and!; [exact Hthrow|exact (f_equal fetches Hwindow)|exact Hshown].
Defined.

Lemma X14_witness :
  let st' := exec (onmessage_order 1 (Some (JObj [("status", JStr "completed")])))
               ordered in
  textContent (element (document st') orderStatusMsg)
    = "Your order has been placed successfully!" ∧
  timer_delay <$> timers (window st') = [3000].
Proof.
  intros st'.
  destruct (X14_order_completed ordered 1 [("status", JStr "completed")] eq_refl)
    as (_ & Hmsg & _ & Htimer & _).
  split; [exact Hmsg|].
  exact (f_equal (fmap timer_delay) Htimer).
Defined.

Lemma X15_witness :
  exec (onmessage_order 1 (Some (JObj [("status", JStr "running")]))) ordered = ordered ∧
  exec (onmessage_order 1 None) ordered = ordered.
Proof.
  split.
  - apply X15_order_listener_ignores_other_frames.
    intros update [= <-]. split; discriminate.
  - apply X15_order_listener_ignores_other_frames. discriminate.
Defined.

Lemma X16_witness :
  let failed := Some (JObj [("status", JStr "error"); ("error", JStr "Out of stock")]) in
  let frames := [Some (JObj [("status", JStr "running")]); failed;
                 Some (JObj [("status", JStr "completed")])] in
  let st' := run (MessageArrives 1 <$> frames) ordered in
  st' = dispatch (MessageArrives 1 failed) ordered ∧
  (length (timers (window st')) ≤ 1)%nat.
Proof.
  intros failed frames st'.
  destruct (X16_order_socket_first_terminal_frame ordered 1
              (mkSocket "ws://localhost:8000/ws/t2" (Some OrderListener) false) frames)
    as (Heq & Hlen).
  - vm_compute. reflexivity.
  - reflexivity.
  - reflexivity.
  - split; [exact Heq|exact Hlen].
Defined.

Lemma X17_witness :
  let st := exec placeOrder ordering in
  let st' := exec (placeOrder_resume (Resolved None)) st in
  textContent (element (document st') orderStatusMsg)
    = "Failed to communicate with server" ∧
  sockets (window st') = sockets (window st).
Proof.
  intros st st'.
  destruct (X17_placeOrder_request_fails st (Resolved None))
    as (_ & Hmsg & _ & _ & Hsock & _).
  - right. left. reflexivity.
  - split; [exact Hmsg|exact Hsock].
Defined.

Lemma X18_witness :
  let e := MessageArrives 1 (Some (JObj [("status", JStr "completed")])) in
  results (this (dispatch e ordered)) = results (this ordered) ∧
  priceCards (document (dispatch e ordered)) = priceCards (document ordered) ∧
  element (document (dispatch e ordered)) searchBtn
  = element (document ordered) searchBtn.
Proof.
  intros e.
  destruct (X18_order_flow_frame e ordered) as (_ & _ & _ & Hres & _ & _ & Hcards & Hel).
  - exists (mkSocket "ws://localhost:8000/ws/t2" (Some OrderListener) false).
    split; [vm_compute; reflexivity|reflexivity].
  - split_and!; [exact Hres|exact Hcards|].
    apply Hel. intros H. inv_elem H.
Defined.

Lemma X19_witness :
  let best := [("app", JStr "zepto"); ("price", JNum 49)] in
  let data := JObj [("status", JStr "completed"); ("best", JObj best)] in
  let st1 := exec (handleSearchComplete data) searching in
  let st3 := dispatch ClickConfirm (dispatch ClickBuyBest st1) in
  fetch_body <$> fetches (window st3) !! 1%nat
  = Some ("{" ++ quote ++ "product" ++ quote ++ ":" ++ quote ++ "milk" ++ quote
          ++ "," ++ quote ++ "app" ++ quote ++ ":" ++ quote ++ "zepto" ++ quote
          ++ "}").
Proof.
  intros best data st1 st3.
  destruct (X19_buy_best_orders_winner searching
              [("status", JStr "completed"); ("best", JObj best)] best "zepto"
              eq_refl eq_refl)
    as (_ & _ & _ & _ & Hfetch).
  etransitivity; [exact (f_equal (λ l, fetch_body <$> l !! 1%nat) Hfetch)|].
  vm_compute. reflexivity.
Defined.

Lemma X20_witness :
  let st1 := exec placeOrder order_failed in
  let st2 := dispatch (TimerFires 0) st1 in
  has_class "hidden" (element (document st1) orderStatusModal) = false ∧
  has_class "hidden" (element (document st2) orderStatusModal) = true ∧
  length (fetches (window st2)) = 3%nat.
Proof.
  intros st1 st2.
  destruct (X20_stale_timer_hides_new_order_dialog order_failed "flipkart" 0
              (mkTimer 3000 HideOrderStatusModal false))
    as (Hshown & Hhidden & Hsame & Hlen).
  - vm_compute. reflexivity.
  - vm_compute. reflexivity.
  - reflexivity.
  - split_and!; [exact Hshown|exact Hhidden|].
    etransitivity; [exact (f_equal length Hsame)|].
    etransitivity; [exact Hlen|]. vm_compute. reflexivity.
Defined.

Lemma X21_witness :
  search_locked
    (run [TypeProduct "bread"; ClickSearch;
          MessageArrives 0 (Some (JObj [("current_app", JStr "amazon")]));
          MessageArrives 0 (Some (JObj [("app_complete", JStr "amazon");
                                         ("result", JObj [("found", JBool false)])]));
          ClickBuy 0; ClickConfirm;
          FetchSettles 1 (Resolved (Some (JObj [("task_id", JStr "t2")])));
          KeypressEnter]
       searching).
Proof.
  apply X21_searchBtn_stays_disabled.
  - reflexivity.
  - repeat constructor.
Defined.

Lemma X22_witness :
  let st2 := dispatch ClickConfirm (dispatch (ClickBuy 3) searching) in
  selectedOrderApp (this st2) = JStr "zepto" ∧
  fetch_url <$> fetches (window st2) = ["/search"; "/order"].
Proof.
  intros st2.
  destruct (X22_buy_button_orders_its_storefront searching 3
              (resetCard (blank_card "zepto")) "zepto")
    as (_ & _ & _ & _ & Hfetch).
  - vm_compute. reflexivity.
  - reflexivity.
  - split; [vm_compute; reflexivity|].
    etransitivity; [exact (f_equal (fmap fetch_url) Hfetch)|].
    vm_compute. reflexivity.
Defined.
